(** * jac-splice-orc: the Splice-Orchestrator plugin

    A shallow embedding of [jac_splice_orc/plugin/splice_plugin.py]
    (class [SpliceOrcPlugin]) and the properties of its cluster bootstrap,
    endpoint resolution, [.env] persistence and import routing.

    Layout: Python-level data ([Py]), the Kubernetes client objects and the
    control-plane interface ([K8s]), the effect monad ([Eff]), the plugin
    methods ([SpliceOrcPlugin]), sample collaborators, then the lemmas. *)

From Stdlib Require Import ZArith Ascii String.
From stdpp Require Import base option list strings gmap.

Local Open Scope Z_scope.
Local Open Scope string_scope.
Local Open Scope list_scope.
Local Open Scope stdpp_scope.

(* ===================================================================== *)
(** ** Python-level data *)
(* ===================================================================== *)

Module Py.

(** Exceptions the plugin sees.  [ApiException] carries the HTTP status
    the handlers test ([e.status == 404]); [Foreign] is an exception of a
    class the plugin never names, raised by a collaborator. *)
Inductive exn : Type :=
| ApiException (status : Z)
| ConfigException
| ValueError
| KeyError (key : string)
| AttributeError
| Foreign (cls : string).

Inductive outcome (A : Type) : Type :=
| Returned (a : A)
| Raised (e : exn).
Global Arguments Returned {A} a.
Global Arguments Raised {A} e.

Definition outcome_map {A B} (f : A → B) (o : outcome A) : outcome B :=
  match o with
  | Returned a => Returned (f a)
  | Raised e => Raised e
  end.

(** *** [str]

    A Python [str] is a [string] whose characters are code points below
    256.  [isspace] is Python's whitespace table on that range. *)
Definition isspace (c : ascii) : bool :=
  match c with
  | "009" | "010" | "011" | "012" | "013"
  | "028" | "029" | "030" | "031" | " "
  | "133" | "160" => true
  | _ => false
  end%char.

Definition LF : ascii := "010"%char.
Definition CR : ascii := "013"%char.
Definition dquote : ascii := "034"%char.
Definition equals : ascii := "="%char.

(** [s.lstrip(chars)] and [s.rstrip(chars)], the character set given as
    a predicate. *)
Fixpoint lstrip_by (p : ascii → bool) (s : string) : string :=
  match s with
  | EmptyString => EmptyString
  | String c r => if p c then lstrip_by p r else s
  end.

Fixpoint rstrip_by (p : ascii → bool) (s : string) : string :=
  match s with
  | EmptyString => EmptyString
  | String c r =>
      match rstrip_by p r with
      | EmptyString => if p c then EmptyString else String c EmptyString
      | r' => String c r'
      end
  end.

Definition strip_by (p : ascii → bool) (s : string) : string :=
  rstrip_by p (lstrip_by p s).

(** [s.strip()] *)
Definition strip (s : string) : string := strip_by isspace s.

(** [s.strip(chars)] with the double quote as the only character of
    [chars]. *)
Definition strip_dquote (s : string) : string :=
  strip_by (Ascii.eqb dquote) s.

(** [s.split(sep, 1)] at the equals sign: [None] stands for the
    one-element list returned when [s] holds no separator. *)
Fixpoint split_eq_1 (s : string) : option (string * string) :=
  match s with
  | EmptyString => None
  | String c r =>
      if Ascii.eqb c equals then Some (EmptyString, r)
      else match split_eq_1 r with
           | Some (k, v) => Some (String c k, v)
           | None => None
           end
  end.

(** Truthiness of a [str] and of optional values. *)
Definition truthy_str (s : string) : bool :=
  match s with EmptyString => false | _ => true end.

Definition truthy_opt_str (o : option string) : bool :=
  match o with Some s => truthy_str s | None => false end.

(** How an f-string renders an optional [str]. *)
Definition fmt_opt (o : option string) : string :=
  match o with Some s => s | None => "None" end.

(** *** Text files

    Reading in text mode translates CR LF and CR to LF; iterating the
    file yields the lines with their terminator. *)
Fixpoint universal_newlines (s : string) : string :=
  match s with
  | EmptyString => EmptyString
  | String c r =>
      if Ascii.eqb c CR then
        String LF (match r with
                   | String c' r' =>
                       if Ascii.eqb c' LF then universal_newlines r'
                       else universal_newlines r
                   | EmptyString => EmptyString
                   end)
      else String c (universal_newlines r)
  end.

Fixpoint readlines (s : string) : list string :=
  match s with
  | EmptyString => []
  | String c r =>
      if Ascii.eqb c LF then String LF EmptyString :: readlines r
      else match readlines r with
           | [] => [String c EmptyString]
           | l :: ls => String c l :: ls
           end
  end.

(** *** [dict] with [str] keys: insertion-ordered, assignment to a key
    already present keeps its position. *)
Definition dict (V : Type) : Type := list (string * V).

Fixpoint dict_set {V} (d : dict V) (k : string) (v : V) : dict V :=
  match d with
  | [] => [(k, v)]
  | (k', v') :: d' =>
      if String.eqb k' k then (k', v) :: d' else (k', v') :: dict_set d' k v
  end.

Fixpoint dict_get {V} (d : dict V) (k : string) : option V :=
  match d with
  | [] => None
  | (k', v') :: d' => if String.eqb k' k then Some v' else dict_get d' k
  end.

End Py.
Export Py.

(* ===================================================================== *)
(** ** Kubernetes client objects and the control plane *)
(* ===================================================================== *)

Module K8s.

(** The part of a [V1Service] the plugin reads.  An attribute the client
    left unset is [None]. *)
Record V1LoadBalancerIngress : Type :=
  { ip : option string; hostname : option string }.
Record V1LoadBalancerStatus : Type :=
  { ingress : option (list V1LoadBalancerIngress) }.
Record V1ServiceStatus : Type :=
  { load_balancer : option V1LoadBalancerStatus }.
Record V1Service : Type :=
  { status : option V1ServiceStatus }.

Record V1PolicyRule : Type :=
  { api_groups : list string; resources : list string; verbs : list string }.
Record V1Role : Type :=
  { role_meta_name : string; role_meta_namespace : string;
    rules : list V1PolicyRule }.
Record RbacV1Subject : Type :=
  { subject_kind : string; subject_name : string; subject_namespace : string }.
Record V1RoleRef : Type :=
  { ref_kind : string; ref_name : string; ref_api_group : string }.
Record V1RoleBinding : Type :=
  { binding_meta_name : string; binding_meta_namespace : string;
    subjects : list RbacV1Subject; role_ref : V1RoleRef }.

(** The client calls the plugin makes, with their arguments. *)
Inductive api_call : Type :=
| list_namespace
| create_namespace (name : string)
| read_namespaced_service_account (name namespace : string)
| create_namespaced_service_account (namespace name : string)
| read_namespaced_role (name namespace : string)
| create_namespaced_role (namespace : string) (body : V1Role)
| read_namespaced_role_binding (name namespace : string)
| create_namespaced_role_binding (namespace : string) (body : V1RoleBinding)
| read_namespaced_service (name namespace : string).

(** What a successful call hands back: the names of the listed
    namespaces, the service read, or nothing the plugin looks at. *)
Definition payload (c : api_call) : Type :=
  match c with
  | list_namespace => list string
  | read_namespaced_service _ _ => V1Service
  | _ => unit
  end.

Inductive api_result (A : Type) : Type :=
| ApiOk (a : A)
| ApiFail (e : exn).
Global Arguments ApiOk {A} a.
Global Arguments ApiFail {A} e.

(** The control plane is a black box: a state and its answer to each
    call. *)
Class ControlPlane (St : Type) : Type :=
  respond : ∀ c : api_call, St → api_result (payload c) * St.

Definition is_read (c : api_call) : bool :=
  match c with
  | read_namespaced_service_account _ _
  | read_namespaced_role _ _
  | read_namespaced_role_binding _ _
  | read_namespaced_service _ _ => true
  | _ => false
  end.

Definition is_create (c : api_call) : bool :=
  match c with
  | create_namespace _
  | create_namespaced_service_account _ _
  | create_namespaced_role _ _
  | create_namespaced_role_binding _ _ => true
  | _ => false
  end.

End K8s.

(* ===================================================================== *)
(** ** The interface of jaclang the import hook uses *)
(* ===================================================================== *)

Module Jaclang.

(** [ImportPathSpec(target, base_path, absorb, cachable, mdl_alias,
    override_name, lng, items)] *)
Record ImportPathSpec : Type :=
  { spec_target : string;
    spec_base_path : string;
    spec_absorb : bool;
    spec_cachable : bool;
    spec_mdl_alias : option string;
    spec_override_name : option string;
    spec_lng : option string;
    spec_items : option (dict (option string)) }.

(** The result of [run_import]. *)
Record ImportReturn (Obj : Type) : Type :=
  { ret_mod : Obj; ret_items : list Obj }.
Global Arguments ret_mod {Obj} _.
Global Arguments ret_items {Obj} _.

(** A value of a [settings.module_config] entry. *)
Inductive cfg_value : Type :=
| CfgStr (s : string)
| CfgList (l : list string).

(** [v == s] for a [str] [s] *)
Definition cfg_eq_str (v : cfg_value) (s : string) : bool :=
  match v with
  | CfgStr s' => String.eqb s' s
  | CfgList _ => false
  end.

Inductive importer : Type := PythonImporter | JacImporter.

End Jaclang.
Export Jaclang.

(* ===================================================================== *)
(** ** Effects: world, events, the monad *)
(* ===================================================================== *)

Module Eff.

Inductive level : Type := INFO | ERROR.

(** A log message is the f-string cut at its interpolated objects:
    [str] arguments are rendered into the text, an exception or another
    object is kept as it is. *)
Inductive fragment : Type :=
| Text (s : string)
| Exc (e : exn)
| Repr.

Inductive event : Type :=
| EvLoadKubeConfig (ok : bool)
| EvLoadInclusterConfig (ok : bool)
| EvApi (c : K8s.api_call) (failure : option exn)
| EvLog (lvl : level) (msg : list fragment)
| EvReadEnvFile
| EvWriteEnvFile (content : string)
| EvGetenv (key : string)
| EvModuleProxy (pod_manager_url : option string) (module_name : string)
    (module_config : gmap string cfg_value)
| EvAttachProgram
| EvRunImport (i : importer) (spec : ImportPathSpec)
    (reload_module : option (option bool)).

(** Everything outside the plugin that it reads or writes. *)
Record World (St : Type) : Type :=
  { cluster : St;                       (* the control plane *)
    kube_config : bool;                 (* [load_kube_config] finds a configuration *)
    incluster_config : bool;            (* [load_incluster_config] finds one *)
    env_file : option string;           (* [./.env]; [None]: no such file *)
    environ : gmap string string;       (* [os.environ] *)
    module_config : gmap string (gmap string cfg_value);
                                        (* [settings.module_config] *)
    jac_program : bool }.               (* the machine has a program attached *)
Global Arguments cluster {St} _.
Global Arguments kube_config {St} _.
Global Arguments incluster_config {St} _.
Global Arguments env_file {St} _.
Global Arguments environ {St} _.
Global Arguments module_config {St} _.
Global Arguments jac_program {St} _.

Definition set_cluster {St} (w : World St) (s : St) : World St :=
  {| cluster := s; kube_config := kube_config w;
     incluster_config := incluster_config w; env_file := env_file w;
     environ := environ w; module_config := module_config w;
     jac_program := jac_program w |}.

Definition set_env_file {St} (w : World St) (f : option string) : World St :=
  {| cluster := cluster w; kube_config := kube_config w;
     incluster_config := incluster_config w; env_file := f;
     environ := environ w; module_config := module_config w;
     jac_program := jac_program w |}.

Definition set_jac_program {St} (w : World St) (b : bool) : World St :=
  {| cluster := cluster w; kube_config := kube_config w;
     incluster_config := incluster_config w; env_file := env_file w;
     environ := environ w; module_config := module_config w;
     jac_program := b |}.

(** A computation: from a world to its outcome, the world it leaves and
    the events it caused, oldest first. *)
Definition M (St A : Type) : Type :=
  World St → outcome A * World St * list event.

Definition ret {St A} (a : A) : M St A := λ w, (Returned a, w, []).

Definition bind {St A B} (m : M St A) (k : A → M St B) : M St B := λ w,
  match m w with
  | (Returned a, w1, t1) =>
      match k a w1 with (r, w2, t2) => (r, w2, t1 ++ t2) end
  | (Raised e, w1, t1) => (Raised e, w1, t1)
  end.

Definition raise {St A} (e : exn) : M St A := λ w, (Raised e, w, []).

(** [try: m  except: h e] *)
Definition try_except {St A} (m : M St A) (h : exn → M St A) : M St A := λ w,
  match m w with
  | (Returned a, w1, t1) => (Returned a, w1, t1)
  | (Raised e, w1, t1) =>
      match h e w1 with (r, w2, t2) => (r, w2, t1 ++ t2) end
  end.

Definition emit {St} (ev : event) : M St unit := λ w, (Returned tt, w, [ev]).

Definition gets {St A} (f : World St → A) : M St A := λ w, (Returned (f w), w, []).

Definition result {St A} (r : outcome A * World St * list event) : outcome A :=
  r.1.1.
Definition final {St A} (r : outcome A * World St * list event) : World St :=
  r.1.2.
Definition events {St A} (r : outcome A * World St * list event) : list event :=
  r.2.

(** The control-plane calls among the events, with their failure. *)
Definition api_calls (t : list event) : list (K8s.api_call * option exn) :=
  omap (λ ev, match ev with EvApi c f => Some (c, f) | _ => None end) t.

Definition logging_info {St} (msg : list fragment) : M St unit :=
  emit (EvLog INFO msg).
Definition logging_error {St} (msg : list fragment) : M St unit :=
  emit (EvLog ERROR msg).

(** A client call: the control plane answers and moves on; a failure is
    raised. *)
Definition call {St} `{!K8s.ControlPlane St} (c : K8s.api_call)
  : M St (K8s.payload c) := λ w,
  match K8s.respond c (cluster w) with
  | (K8s.ApiOk a, s) => (Returned a, set_cluster w s, [EvApi c None])
  | (K8s.ApiFail e, s) => (Raised e, set_cluster w s, [EvApi c (Some e)])
  end.

Definition load_kube_config {St} : M St unit := λ w,
  if kube_config w then (Returned tt, w, [EvLoadKubeConfig true])
  else (Raised ConfigException, w, [EvLoadKubeConfig false]).

Definition load_incluster_config {St} : M St unit := λ w,
  if incluster_config w then (Returned tt, w, [EvLoadInclusterConfig true])
  else (Raised ConfigException, w, [EvLoadInclusterConfig false]).

(** [os.getenv(key)] *)
Definition getenv {St} (key : string) : M St (option string) := λ w,
  (Returned (environ w !! key), w, [EvGetenv key]).

End Eff.
Export Eff.

Notation "x <- m ;; k" := (Eff.bind m (λ x, k))
  (at level 100, m at next level, right associativity,
   format "'[v' x  <-  m  ;; '/' k ']'").
Notation "m ;;; k" := (Eff.bind m (λ _, k))
  (at level 100, right associativity, format "'[v' m  ;;; '/' k ']'").

(* ===================================================================== *)
(** ** The plugin *)
(* ===================================================================== *)

Module SpliceOrcPlugin.

(** What [jac_import] returns in its tuple: an object of the local
    importer or a remote module proxy. *)
Inductive module_like (Obj Proxy : Type) : Type :=
| Local (o : Obj)
| Remote (p : Proxy).
Global Arguments Local {Obj Proxy} o.
Global Arguments Remote {Obj Proxy} p.

(** The names the methods fix. *)
Definition namespace : string := "jac-splice-orc".
Definition service_account_name : string := "smartimportsa".
Definition role_name : string := "smartimport-role".
Definition role_binding_name : string := "smartimport-rolebinding".
Definition service_name : string := "pod-manager-service".

Definition lifecycle_verbs : list string :=
  ["get"; "watch"; "list"; "create"; "update"; "delete"].

Definition role (namespace : string) : K8s.V1Role :=
  {| K8s.role_meta_name := role_name;
     K8s.role_meta_namespace := namespace;
     K8s.rules :=
       [ {| K8s.api_groups := [""];
            K8s.resources := ["pods"; "services"; "configmaps"];
            K8s.verbs := lifecycle_verbs |};
         {| K8s.api_groups := ["apps"];
            K8s.resources := ["deployments"];
            K8s.verbs := lifecycle_verbs |} ] |}.

Definition role_binding (namespace service_account_name : string)
  : K8s.V1RoleBinding :=
  {| K8s.binding_meta_name := role_binding_name;
     K8s.binding_meta_namespace := namespace;
     K8s.subjects :=
       [ {| K8s.subject_kind := "ServiceAccount";
            K8s.subject_name := service_account_name;
            K8s.subject_namespace := namespace |} ];
     K8s.role_ref :=
       {| K8s.ref_kind := "Role";
          K8s.ref_name := role_name;
          K8s.ref_api_group := "rbac.authorization.k8s.io" |} |}.

(** The loop of [configure_pod_manager_url] over the lines of [.env]:
    a line that is not blank and holds no equals sign fails the
    unpacking of [split]. *)
Fixpoint read_env_vars (lines : list string) (env_vars : dict string)
  : outcome (dict string) :=
  match lines with
  | [] => Returned env_vars
  | line :: rest =>
      if truthy_str (strip line) then
        match split_eq_1 (strip line) with
        | Some (key, value) =>
            read_env_vars rest (dict_set env_vars key (strip_dquote value))
        | None => Raised ValueError
        end
      else read_env_vars rest env_vars
  end.

(** One written line: the key, the equals sign, and the value in double
    quotes. *)
Definition env_line (kv : string * string) : string :=
  kv.1 +:+ String equals (String dquote (kv.2 +:+ String dquote (String LF ""))).

Definition write_env_vars (env_vars : dict string) : string :=
  foldr (λ kv acc, env_line kv +:+ acc) "" env_vars.

Section Methods.
Context {St : Type} `{!K8s.ControlPlane St}.

(** [try: config.load_kube_config()
     except config.ConfigException: config.load_incluster_config()] *)
Definition load_config : M St unit :=
  try_except load_kube_config
    (λ e, match e with
          | ConfigException => load_incluster_config
          | _ => raise e
          end).

Definition create_namespace (namespace_name : string) : M St unit :=
  logging_info [Text ("Creating namespace '" +:+ namespace_name +:+ "'")] ;;;
  load_config ;;;
  namespaces <- call K8s.list_namespace ;;
  if existsb (λ ns, String.eqb ns namespace_name) namespaces then
    logging_info
      [Text ("Namespace '" +:+ namespace_name +:+ "' already exists.")]
  else
    call (K8s.create_namespace namespace_name) ;;;
    logging_info [Text ("Namespace '" +:+ namespace_name +:+ "' created.")].

Definition create_role_and_binding (namespace service_account_name : string)
  : M St unit :=
  try_except
    (call (K8s.read_namespaced_role role_name namespace) ;;;
     logging_info
       [Text ("Role '" +:+ role_name +:+ "' already exists in namespace '"
              +:+ namespace +:+ "'.")])
    (λ e, match e with
          | ApiException status =>
              if (status =? 404)%Z then
                call (K8s.create_namespaced_role namespace (role namespace)) ;;;
                logging_info
                  [Text ("Role '" +:+ role_name +:+ "' created in namespace '"
                         +:+ namespace +:+ "'.")]
              else
                logging_error [Text "Error creating Role: "; Exc e] ;;;
                raise e
          | _ => raise e
          end) ;;;
  try_except
    (call (K8s.read_namespaced_role_binding role_binding_name namespace) ;;;
     logging_info
       [Text ("RoleBinding '" +:+ role_binding_name
              +:+ "' already exists in namespace '" +:+ namespace +:+ "'.")])
    (λ e, match e with
          | ApiException status =>
              if (status =? 404)%Z then
                call (K8s.create_namespaced_role_binding namespace
                        (role_binding namespace service_account_name)) ;;;
                logging_info
                  [Text ("RoleBinding '" +:+ role_binding_name
                         +:+ "' created in namespace '" +:+ namespace +:+ "'.")]
              else
                logging_error [Text "Error creating RoleBinding: "; Exc e] ;;;
                raise e
          | _ => raise e
          end).

Definition create_service_account (namespace : string) : M St unit :=
  try_except
    (call (K8s.read_namespaced_service_account service_account_name namespace) ;;;
     logging_info
       [Text ("ServiceAccount '" +:+ service_account_name
              +:+ "' already exists in namespace '" +:+ namespace +:+ "'.")])
    (λ e, match e with
          | ApiException status =>
              if (status =? 404)%Z then
                call (K8s.create_namespaced_service_account namespace
                        service_account_name) ;;;
                logging_info
                  [Text ("ServiceAccount '" +:+ service_account_name
                         +:+ "' created in namespace '" +:+ namespace +:+ "'.")]
              else
                logging_error [Text "Error creating ServiceAccount: "; Exc e] ;;;
                raise e
          | _ => raise e
          end) ;;;
  create_role_and_binding namespace service_account_name.

(** [service.status.load_balancer.ingress]: an attribute of [None]
    raises. *)
Definition service_ingress (service : K8s.V1Service)
  : M St (option (list K8s.V1LoadBalancerIngress)) :=
  match K8s.status service with
  | None => raise AttributeError
  | Some status =>
      match K8s.load_balancer status with
      | None => raise AttributeError
      | Some load_balancer => ret (K8s.ingress load_balancer)
      end
  end.

Definition get_loadbalancer_url (service_name namespace : string)
  : M St (option string) :=
  load_config ;;;
  try_except
    (service <- call (K8s.read_namespaced_service service_name namespace) ;;
     ingress <- service_ingress service ;;
     match ingress with
     | Some (ingress_0 :: _) =>
         let ip := K8s.ip ingress_0 in
         let hostname := K8s.hostname ingress_0 in
         logging_info
           [Text ("ip: " +:+ fmt_opt ip +:+ ", host: " +:+ fmt_opt hostname)] ;;;
         if truthy_opt_str ip then ret ip
         else if truthy_opt_str hostname then ret hostname
         else ret None
     | _ => ret None
     end)
    (λ e, match e with
          | ApiException _ =>
              logging_error [Text "Error retrieving LoadBalancer URL: "; Exc e] ;;;
              ret None
          | _ => raise e
          end).

(** [open(env_file_path, mode r)] and the loop over its lines. *)
Definition read_env_file : M St (dict string) := λ w,
  match env_file w with
  | Some content =>
      (read_env_vars (readlines (universal_newlines content)) [],
       w, [EvReadEnvFile])
  | None => (Raised (Foreign "FileNotFoundError"), w, [EvReadEnvFile])
  end.

(** The block that reads the existing [.env] variables: the empty
    [dict] unless [os.path.exists(env_file_path)]. *)
Definition existing_env_vars : M St (dict string) :=
  exists_ <- gets (λ w, bool_decide (is_Some (env_file w))) ;;
  if exists_ : bool then read_env_file else ret [].

(** [open(env_file_path, mode w)] and the loop of writes. *)
Definition write_env_file (env_vars : dict string) : M St unit := λ w,
  let content := write_env_vars env_vars in
  (Returned tt, set_env_file w (Some content), [EvWriteEnvFile content]).

Definition configure_pod_manager_url (namespace : string) : M St unit :=
  url <- get_loadbalancer_url service_name namespace ;;
  if truthy_opt_str url then
    let pod_manager_url_local := "http://" +:+ fmt_opt url +:+ ":8000" in
    env_vars <- existing_env_vars ;;
    let env_vars := dict_set env_vars "POD_MANAGER_URL" pod_manager_url_local in
    write_env_file env_vars ;;;
    logging_info
      [Text ("Pod manager URL updated in .env file: " +:+ pod_manager_url_local)]
  else
    logging_error [Text "Failed to retrieve the pod_manager_url."].

(** The Cluster Bootstrapper: the first two calls of [__init__]. *)
Definition bootstrap : M St unit :=
  logging_info [Text "Initializing SpliceOrcPlugin"] ;;;
  create_namespace namespace ;;;
  create_service_account namespace.

End Methods.

Section ImportHook.
Context {St Obj Proxy : Type}.

(** The collaborators that are not part of the plugin:
    [ModuleProxy(pod_manager_url).get_module_proxy(module_name,
    module_config)] and the two importers' [run_import].  Asking for a
    proxy goes to the pod manager, which works on the cluster: the call
    takes the state of the cluster and hands back the state it leaves. *)
Variable get_module_proxy :
  option string → string → gmap string cfg_value → St → outcome Proxy * St.
Variable python_run_import :
  ImportPathSpec → outcome (ImportReturn Obj).
Variable jac_run_import :
  ImportPathSpec → option bool → outcome (ImportReturn Obj).

Definition call_module_proxy (pod_manager_url : option string)
    (module_name : string) (module_config : gmap string cfg_value)
  : M St Proxy := λ w,
  let answer :=
    get_module_proxy pod_manager_url module_name module_config (cluster w) in
  (answer.1, set_cluster w answer.2,
   [EvModuleProxy pod_manager_url module_name module_config]).

Definition call_run_import (i : importer) (spec : ImportPathSpec)
    (reload_module : option bool) : M St (ImportReturn Obj) := λ w,
  match i with
  | PythonImporter =>
      (python_run_import spec, w, [EvRunImport PythonImporter spec None])
  | JacImporter =>
      (jac_run_import spec reload_module, w,
       [EvRunImport JacImporter spec (Some reload_module)])
  end.

(** [jac_machine.attach_program(JacProgram(mod_bundle=None, bytecode=None))] *)
Definition attach_program : M St unit := λ w,
  (Returned tt, set_jac_program w true, [EvAttachProgram]).

(** Truthiness of [items]. *)
Definition truthy_items (items : option (dict (option string))) : bool :=
  match items with
  | Some (_ :: _) => true
  | _ => false
  end.

Definition local_import (target base_path : string) (absorb cachable : bool)
    (mdl_alias override_name lng : option string)
    (items : option (dict (option string))) (reload_module : option bool)
  : M St (list (module_like Obj Proxy)) :=
  let spec :=
    {| spec_target := target; spec_base_path := base_path;
       spec_absorb := absorb; spec_cachable := cachable;
       spec_mdl_alias := mdl_alias; spec_override_name := override_name;
       spec_lng := lng; spec_items := items |} in
  has_program <- gets jac_program ;;
  (if negb has_program then attach_program else ret tt) ;;;
  import_result <-
    (if bool_decide (lng = Some "py")
     then call_run_import PythonImporter spec reload_module
     else call_run_import JacImporter spec reload_module) ;;
  ret (if absorb || negb (truthy_items items)
       then [Local (ret_mod import_result)]
       else Local <$> ret_items import_result).

Definition jac_import (target base_path : string) (absorb cachable : bool)
    (mdl_alias override_name lng : option string)
    (items : option (dict (option string))) (reload_module : option bool)
  : M St (list (module_like Obj Proxy)) :=
  settings_module_config <- gets module_config ;;
  is_remote <-
    match settings_module_config !! target with
    | None => ret None
    | Some config =>
        match config !! "load_type" with
        | None => raise (KeyError "load_type")
        | Some load_type =>
            ret (if cfg_eq_str load_type "remote" then Some config else None)
        end
    end ;;
  match is_remote with
  | Some config =>
      pod_manager_url <- getenv "POD_MANAGER_URL" ;;
      remote_module_proxy <- call_module_proxy pod_manager_url target config ;;
      logging_info [Text "Loading remote module "; Repr] ;;;
      ret [Remote remote_module_proxy]
  | None =>
      local_import target base_path absorb cachable mdl_alias override_name
        lng items reload_module
  end.

End ImportHook.

End SpliceOrcPlugin.

(* ===================================================================== *)
(** ** A reference control plane *)
(* ===================================================================== *)

(** Kubernetes' answers as the plugin relies on them: reading an absent
    object answers 404, creating a present one 409, creating in an absent
    namespace 404.  [fault] injects any other failure, call by call. *)
Module Cluster.

Record state : Type :=
  { namespaces : gset string;
    service_accounts : gset (string * string);          (* (namespace, name) *)
    roles : gmap (string * string) K8s.V1Role;
    role_bindings : gmap (string * string) K8s.V1RoleBinding;
    services : gmap (string * string) K8s.V1Service;
    fault : K8s.api_call → option exn }.

Definition not_found {A} (s : state) : K8s.api_result A * state :=
  (K8s.ApiFail (ApiException 404), s).
Definition conflict {A} (s : state) : K8s.api_result A * state :=
  (K8s.ApiFail (ApiException 409), s).

Definition answer (c : K8s.api_call) (s : state)
  : K8s.api_result (K8s.payload c) * state :=
  match c as c0 return K8s.api_result (K8s.payload c0) * state with
  | K8s.list_namespace => (K8s.ApiOk (elements (namespaces s)), s)
  | K8s.create_namespace name =>
      if decide (name ∈ namespaces s) then conflict s
      else (K8s.ApiOk tt,
            {| namespaces := {[name]} ∪ namespaces s;
               service_accounts := service_accounts s; roles := roles s;
               role_bindings := role_bindings s; services := services s;
               fault := fault s |})
  | K8s.read_namespaced_service_account name ns =>
      if decide ((ns, name) ∈ service_accounts s) then (K8s.ApiOk tt, s)
      else not_found s
  | K8s.create_namespaced_service_account ns name =>
      if decide (ns ∈ namespaces s) then
        if decide ((ns, name) ∈ service_accounts s) then conflict s
        else (K8s.ApiOk tt,
              {| namespaces := namespaces s;
                 service_accounts := {[(ns, name)]} ∪ service_accounts s;
                 roles := roles s; role_bindings := role_bindings s;
                 services := services s; fault := fault s |})
      else not_found s
  | K8s.read_namespaced_role name ns =>
      match roles s !! (ns, name) with
      | Some _ => (K8s.ApiOk tt, s)
      | None => not_found s
      end
  | K8s.create_namespaced_role ns body =>
      if decide (ns ∈ namespaces s) then
        match roles s !! (ns, K8s.role_meta_name body) with
        | Some _ => conflict s
        | None =>
            (K8s.ApiOk tt,
             {| namespaces := namespaces s;
                service_accounts := service_accounts s;
                roles := <[(ns, K8s.role_meta_name body) := body]> (roles s);
                role_bindings := role_bindings s;
                services := services s; fault := fault s |})
        end
      else not_found s
  | K8s.read_namespaced_role_binding name ns =>
      match role_bindings s !! (ns, name) with
      | Some _ => (K8s.ApiOk tt, s)
      | None => not_found s
      end
  | K8s.create_namespaced_role_binding ns body =>
      if decide (ns ∈ namespaces s) then
        match role_bindings s !! (ns, K8s.binding_meta_name body) with
        | Some _ => conflict s
        | None =>
            (K8s.ApiOk tt,
             {| namespaces := namespaces s;
                service_accounts := service_accounts s;
                roles := roles s;
                role_bindings :=
                  <[(ns, K8s.binding_meta_name body) := body]> (role_bindings s);
                services := services s; fault := fault s |})
        end
      else not_found s
  | K8s.read_namespaced_service name ns =>
      match services s !! (ns, name) with
      | Some service => (K8s.ApiOk service, s)
      | None => not_found s
      end
  end.

Global Instance control_plane : K8s.ControlPlane state := λ c s,
  match fault s c with
  | Some e => (K8s.ApiFail e, s)
  | None => answer c s
  end.

Definition no_fault : K8s.api_call → option exn := λ _, None.

(** The four objects of the bootstrap are there. *)
Definition bootstrapped (s : state) : Prop :=
  SpliceOrcPlugin.namespace ∈ namespaces s
  ∧ (SpliceOrcPlugin.namespace, SpliceOrcPlugin.service_account_name)
      ∈ service_accounts s
  ∧ is_Some (roles s !! (SpliceOrcPlugin.namespace, SpliceOrcPlugin.role_name))
  ∧ is_Some (role_bindings s
               !! (SpliceOrcPlugin.namespace, SpliceOrcPlugin.role_binding_name)).

Definition empty : state :=
  {| namespaces := ∅; service_accounts := ∅; roles := ∅;
     role_bindings := ∅; services := ∅; fault := no_fault |}.

End Cluster.

Definition world0 (s : Cluster.state) (f : option string) : World Cluster.state :=
  {| cluster := s; kube_config := true; incluster_config := false;
     env_file := f; environ := ∅; module_config := ∅; jac_program := false |}.

(* ===================================================================== *)
(** ** Sample collaborators and the conditions of import routing *)
(* ===================================================================== *)

Module Reference.

(** Modelled from the spec: [jac_splice_orc.managers.proxy_manager] is
    not among the sources.  A ModuleProxy holds the module identifier,
    the manager endpoint and a lazily resolved remote symbol table. *)
Record ModuleProxy : Type :=
  { proxy_module : string;
    proxy_endpoint : string;
    proxy_symbols : gmap string string }.

(** Modelled from the spec: the failure of the factory's own kind, a
    manager that cannot be contacted; the configuration error is the
    router's, not the factory's. *)
Definition RemoteUnreachableError : exn := Foreign "RemoteUnreachableError".


(** Modelled from the spec: [ModuleProxy(pod_manager_url)
    .get_module_proxy(module_name, module_config)] of the missing
    [proxy_manager].  The factory talks to the manager at the address it
    is given to obtain the proxy; given no address it has no manager to
    talk to and fails as for a manager out of reach.  The symbol table of
    a new proxy is empty. *)
Definition get_module_proxy {St} (pod_manager_url : option string)
    (module_name : string) (module_config : gmap string cfg_value) (s : St)
  : outcome ModuleProxy * St :=
  match pod_manager_url with
  | Some endpoint =>
      (Returned {| proxy_module := module_name;
                   proxy_endpoint := endpoint;
                   proxy_symbols := ∅ |}, s)
  | None => (Raised RemoteUnreachableError, s)
  end.

(** What a sample importer hands back: a module, or an object bound to
    one of its names. *)
Inductive py_object : Type :=
| Module_ (name : string)
| Object (identity : Z).

(** The names of the sample modules and the objects bound to them:
    [pkg.mod] binds two names to two objects, [pkg.twin] binds two names
    to one object. *)
Definition attributes (module_name : string) : dict Z :=
  if String.eqb module_name "pkg.mod" then [("a", 1); ("b", 2)]
  else if String.eqb module_name "pkg.twin" then [("a", 7); ("b", 7)]
  else [].

(** The requested items, in request order; none when [items] is
    [None]. *)
Definition requested (items : option (dict (option string)))
  : list (string * option string) :=
  match items with Some l => l | None => [] end.

(** The objects of the requested names, in request order, each object
    once. *)
Fixpoint load_items (attrs : dict Z) (names : list (string * option string))
    (loaded : list Z) : outcome (list Z) :=
  match names with
  | [] => Returned loaded
  | (name, _) :: rest =>
      match dict_get attrs name with
      | None => Raised AttributeError
      | Some item =>
          load_items attrs rest
            (if existsb (Z.eqb item) loaded then loaded else loaded ++ [item])
      end
  end.

(** A sample importer: it hands back the module and, for the requested
    names, the objects bound to them, in request order and each object
    once. *)
Definition run_import (spec : ImportPathSpec) : outcome (ImportReturn py_object) :=
  outcome_map
    (λ loaded, {| ret_mod := Module_ (spec_target spec);
                  ret_items := Object <$> loaded |})
    (load_items (attributes (spec_target spec)) (requested (spec_items spec)) []).

End Reference.

(** The two sides of the condition [jac_import] tests. *)
Definition remote_mode {St} (w : World St) (target : string)
    (config : gmap string cfg_value) : Prop :=
  module_config w !! target = Some config
  ∧ config !! "load_type" = Some (CfgStr "remote").

Definition local_mode {St} (w : World St) (target : string) : Prop :=
  module_config w !! target = None
  ∨ ∃ config, module_config w !! target = Some config
              ∧ config !! "load_type" = Some (CfgStr "local").

(** The client finds a configuration, from the kube config file or from
    inside the cluster. *)
Definition config_loadable {St} (w : World St) : Prop :=
  kube_config w = true ∨ incluster_config w = true.

(** An address an f-string can put on one line. *)
Fixpoint all_chars (q : ascii → bool) (s : string) : bool :=
  match s with
  | EmptyString => true
  | String c r => q c && all_chars q r
  end.

Definition not_linebreak (c : ascii) : bool :=
  negb (Ascii.eqb c LF) && negb (Ascii.eqb c CR).

Definition one_line (s : string) : bool := all_chars not_linebreak s.

(** The store as the plugin reads it. *)
Definition stored {St} (w : World St)
  : outcome (dict string) :=
  result (SpliceOrcPlugin.existing_env_vars w).

Definition POD_MANAGER_URL : string := "POD_MANAGER_URL".

(** What survives a write and a read back: a key on one line, free of the
    equals sign and of leading whitespace; a value on one line with no
    double quote at either end. *)
Definition starts_clear (p : ascii → bool) (s : string) : bool :=
  match s with
  | EmptyString => true
  | String c _ => negb (p c)
  end.

Fixpoint ends_clear (p : ascii → bool) (s : string) : bool :=
  match s with
  | EmptyString => true
  | String c r =>
      match r with
      | EmptyString => negb (p c)
      | String _ _ => ends_clear p r
      end
  end.

Definition not_equals (c : ascii) : bool := negb (Ascii.eqb c equals).

Definition clean_entry (kv : string * string) : Prop :=
  one_line kv.1 = true
  ∧ all_chars not_equals kv.1 = true
  ∧ starts_clear isspace kv.1 = true
  ∧ one_line kv.2 = true
  ∧ starts_clear (Ascii.eqb dquote) kv.2 = true
  ∧ ends_clear (Ascii.eqb dquote) kv.2 = true.

(** A line as iteration over a text file yields it, once the file holds
    no carriage return. *)
Definition line_shaped (l : string) : Prop :=
  ∃ a, one_line a = true ∧ (l = a ∨ l = a +:+ String LF "").

Definition not_CR (c : ascii) : bool := negb (Ascii.eqb c CR).

(** The text of a written line before its terminator. *)
Definition line_body (kv : string * string) : string :=
  kv.1 +:+ String equals (String dquote (kv.2 +:+ String dquote "")).

(** The address as the description of endpoint resolution words it: of
    the first ingress entry only, its IP when present, otherwise its
    hostname when present, otherwise none. *)
Definition present (o : option string) : Prop := ∃ a, o = Some a ∧ a ≠ "".
Definition absent (o : option string) : Prop := o = None ∨ o = Some "".

Definition first_entry_address (ingress : option (list K8s.V1LoadBalancerIngress))
  : option string :=
  match ingress with
  | Some (entry :: _) =>
      match K8s.ip entry, K8s.hostname entry with
      | Some (String c a), _ => Some (String c a)
      | _, Some (String c h) => Some (String c h)
      | _, _ => None
      end
  | _ => None
  end.

(** Some ingress entry, the first or a later one, reports the address
    [a] in the given field. *)
Definition reports (field : K8s.V1LoadBalancerIngress → option string)
    (ingress : option (list K8s.V1LoadBalancerIngress)) (a : string) : Prop :=
  ∃ entries entry,
    ingress = Some entries ∧ entry ∈ entries ∧ field entry = Some a ∧ a ≠ "".

(** A service that has no assigned ingress address. *)
Definition no_ingress_address (ingress : option (list K8s.V1LoadBalancerIngress))
  : Prop :=
  ingress = None ∨ ingress = Some []
  ∨ ∃ entry rest, ingress = Some (entry :: rest)
                  ∧ absent (K8s.ip entry) ∧ absent (K8s.hostname entry).

(** The events that touch [.env]. *)
Definition is_file_event (ev : event) : bool :=
  match ev with
  | EvReadEnvFile | EvWriteEnvFile _ => true
  | _ => false
  end.

Definition file_events (t : list event) : list event :=
  List.filter is_file_event t.

(** A run stops at the first control-plane failure it does not handle:
    any failed call, other than a read answered 404, is the last call of
    the run and its exception is what the run raises. *)
Definition fail_fast {St A} (r : outcome A * World St * list event) : Prop :=
  ∀ c e, (c, Some e) ∈ api_calls (events r) →
         (K8s.is_read c = true → e ≠ ApiException 404) →
         result r = Raised e ∧ last (api_calls (events r)) = Some (c, Some e).

(** No failure is injected into the reference control plane. *)
Definition fault_free (w : World Cluster.state) : Prop :=
  ∀ c, Cluster.fault (cluster w) c = None.

(** The reference control plane only gains namespaces and keeps its
    faults. *)
Definition grows (s s' : Cluster.state) : Prop :=
  Cluster.namespaces s ⊆ Cluster.namespaces s'
  ∧ Cluster.fault s' = Cluster.fault s.

(** The condition of [jac_import] is false without a failed lookup. *)
Definition not_remote {St} (w : World St) (target : string) : Prop :=
  module_config w !! target = None
  ∨ ∃ config load_type,
      module_config w !! target = Some config
      ∧ config !! "load_type" = Some load_type
      ∧ cfg_eq_str load_type "remote" = false.

(** The [ImportPathSpec] the hook builds from its arguments. *)
Definition spec_of (target base_path : string) (absorb cachable : bool)
    (mdl_alias override_name lng : option string)
    (items : option (dict (option string))) : ImportPathSpec :=
  {| spec_target := target; spec_base_path := base_path;
     spec_absorb := absorb; spec_cachable := cachable;
     spec_mdl_alias := mdl_alias; spec_override_name := override_name;
     spec_lng := lng; spec_items := items |}.

Definition is_import_event (ev : event) : bool :=
  match ev with EvRunImport _ _ _ => true | _ => false end.

Definition is_endpoint_event (ev : event) : bool :=
  match ev with EvGetenv _ | EvModuleProxy _ _ _ => true | _ => false end.

Section RoutingTerms.
Context {Obj Proxy : Type}.
Variable python_run_import : ImportPathSpec → outcome (ImportReturn Obj).
Variable jac_run_import :
  ImportPathSpec → option bool → outcome (ImportReturn Obj).

(** What the importer of the request's language answers. *)
Definition imported (lng : option string) (spec : ImportPathSpec)
    (reload_module : option bool) : outcome (ImportReturn Obj) :=
  if bool_decide (lng = Some "py") then python_run_import spec
  else jac_run_import spec reload_module.

(** The call of that importer, as an event. *)
Definition import_event (lng : option string) (spec : ImportPathSpec)
    (reload_module : option bool) : event :=
  if bool_decide (lng = Some "py") then EvRunImport PythonImporter spec None
  else EvRunImport JacImporter spec (Some reload_module).

(** The tuple built from an importer's answer. *)
Definition shape (absorb : bool) (items : option (dict (option string)))
    (ir : ImportReturn Obj)
  : list (SpliceOrcPlugin.module_like Obj Proxy) :=
  if absorb || negb (SpliceOrcPlugin.truthy_items items)
  then [SpliceOrcPlugin.Local (ret_mod ir)]
  else SpliceOrcPlugin.Local <$> ret_items ir.

End RoutingTerms.

(* ===================================================================== *)
(** ** Concrete clusters, files and requests *)
(* ===================================================================== *)

Module Sample.
Import SpliceOrcPlugin.

Definition service_of (ingress : option (list K8s.V1LoadBalancerIngress))
  : K8s.V1Service :=
  {| K8s.status :=
       Some {| K8s.load_balancer := Some {| K8s.ingress := ingress |} |} |}.

(** A bootstrapped namespace that holds the manager service. *)
Definition cluster_of (ingress : option (list K8s.V1LoadBalancerIngress))
    (fault : K8s.api_call → option exn) : Cluster.state :=
  {| Cluster.namespaces := {[namespace]};
     Cluster.service_accounts := ∅;
     Cluster.roles := ∅;
     Cluster.role_bindings := ∅;
     Cluster.services := {[(namespace, service_name) := service_of ingress]};
     Cluster.fault := fault |}.

Definition both : K8s.V1LoadBalancerIngress :=
  {| K8s.ip := Some "10.0.0.7"; K8s.hostname := Some "manager.example" |}.
Definition only_hostname : K8s.V1LoadBalancerIngress :=
  {| K8s.ip := None; K8s.hostname := Some "manager.example" |}.
Definition only_ip : K8s.V1LoadBalancerIngress :=
  {| K8s.ip := Some "10.0.0.7"; K8s.hostname := None |}.
Definition pending : K8s.V1LoadBalancerIngress :=
  {| K8s.ip := None; K8s.hostname := None |}.

(** [.env] with two unrelated keys, the second written with spaces. *)
Definition env_text : string :=
  "DEBUG=1" +:+ String LF ("REGION = eu" +:+ String LF "").

(** [.env] with a comment line. *)
Definition env_comment : string :=
  "# local settings" +:+ String LF ("DEBUG=1" +:+ String LF "").

Definition ready : World Cluster.state :=
  world0 (cluster_of (Some [both; only_hostname]) Cluster.no_fault)
    (Some env_text).
Definition unready : World Cluster.state :=
  world0 (cluster_of None Cluster.no_fault) (Some env_text).
Definition unready_entry : World Cluster.state :=
  world0 (cluster_of (Some [pending; both]) Cluster.no_fault) (Some env_text).

(** The hostname on the first ingress entry, the IP on the second. *)
Definition split_ingress : list K8s.V1LoadBalancerIngress :=
  [only_hostname; only_ip].
Definition split : World Cluster.state :=
  world0 (cluster_of (Some split_ingress) Cluster.no_fault) (Some env_text).

(** The read of the manager service is refused. *)
Definition forbidden : K8s.api_call → option exn := λ c,
  match c with
  | K8s.read_namespaced_service _ _ => Some (ApiException 403)
  | _ => None
  end.
Definition refused : World Cluster.state :=
  world0 (cluster_of (Some [both]) forbidden) (Some env_text).

Definition commented : World Cluster.state :=
  world0 (cluster_of (Some [both]) Cluster.no_fault) (Some env_comment).

(** Reading the role is answered with a server error. *)
Definition role_outage : K8s.api_call → option exn := λ c,
  match c with
  | K8s.read_namespaced_role _ _ => Some (ApiException 500)
  | _ => None
  end.
Definition outage : World Cluster.state :=
  world0 (cluster_of None role_outage) None.

Definition fresh : World Cluster.state := world0 Cluster.empty None.

(** [settings.module_config] with one remote module; no endpoint in the
    environment. *)
Definition remote_config : gmap string cfg_value :=
  {["load_type" := CfgStr "remote"]}.


(** The same with the endpoint in the environment. *)
Definition routed_known : World Cluster.state :=
  {| cluster := Cluster.empty; kube_config := true; incluster_config := false;
     env_file := None;
     environ := {["POD_MANAGER_URL" := "http://10.0.0.7:8000"]};
     module_config := {["numpy" := remote_config]};
     jac_program := false |}.


Definition jac_run_import (spec : ImportPathSpec) (reload_module : option bool)
  : outcome (ImportReturn Reference.py_object) :=
  Reference.run_import spec.

(** A Python import of [target] from [/app] through the hook, with the
    sample collaborators. *)
Definition import_ (target : string) (absorb : bool)
    (items : option (dict (option string)))
  : M Cluster.state (list (module_like Reference.py_object Reference.ModuleProxy)) :=
  jac_import Reference.get_module_proxy Reference.run_import jac_run_import
    target "/app" absorb true None None (Some "py") items None.

End Sample.

(* ===================================================================== *)
(** ** The manifest and the activation of the plugin *)
(* ===================================================================== *)

Module Activation.
Import SpliceOrcPlugin.

(** An entry of [FailToCreateError.api_exceptions], as the handler reads
    it. *)
Record api_exception : Type :=
  { err_status : Z; err_reason : string }.

(** How [utils.create_from_yaml] ends: it returns, it raises
    [FailToCreateError] with its [api_exceptions], or it raises an
    exception of another class. *)
Inductive yaml_answer : Type :=
| Created
| FailToCreate (api_exceptions : list api_exception)
| Failed (e : exn).

(** The [FailToCreateError] under handling, as an outcome names it. *)
Definition FailToCreateError : exn := Foreign "FailToCreateError".

Section Methods.
Context {St : Type} `{!K8s.ControlPlane St}.

(** [utils.create_from_yaml(k8s_client, yaml_file, namespace=namespace)]
    is a collaborator of its own: it answers and moves the control plane
    on. *)
Variable create_from_yaml : string → string → St → yaml_answer * St.

(** The absolute path of [managers/pod_manager_deployment.yml] next to
    the plugin. *)
Variable yaml_file : string.

Definition call_create_from_yaml (namespace : string) : M St yaml_answer := λ w,
  match create_from_yaml yaml_file namespace (cluster w) with
  | (answer, s) => (Returned answer, set_cluster w s, [])
  end.

(** The loop of the [FailToCreateError] handler: the bare [raise] raises
    the error under handling again. *)
Fixpoint handle_api_exceptions (api_exceptions : list api_exception)
  : M St unit :=
  match api_exceptions with
  | [] => ret tt
  | err :: rest =>
      if (err_status err =? 409)%Z then
        logging_info [Text ("Resource already exists: " +:+ err_reason err)] ;;;
        handle_api_exceptions rest
      else
        logging_error [Text "Error creating resource: ";
                       Exc (ApiException (err_status err))] ;;;
        raise FailToCreateError
  end.

Definition apply_pod_manager_yaml (namespace : string) : M St unit :=
  load_config ;;;
  logging_info
    [Text ("Applying " +:+ yaml_file +:+ " in namespace " +:+ namespace)] ;;;
  answer <- call_create_from_yaml namespace ;;
  match answer with
  | Created => logging_info [Text ("Successfully applied " +:+ yaml_file)]
  | FailToCreate api_exceptions => handle_api_exceptions api_exceptions
  | Failed e =>
      logging_error [Text "An unexpected error occurred: "; Exc e] ;;;
      raise e
  end.

(** [__init__] *)
Definition init : M St unit :=
  logging_info [Text "Initializing SpliceOrcPlugin"] ;;;
  create_namespace namespace ;;;
  create_service_account namespace ;;;
  apply_pod_manager_yaml namespace ;;;
  configure_pod_manager_url namespace.

End Methods.

End Activation.

(* ===================================================================== *)
(** ** Further conditions *)
(* ===================================================================== *)

(** A line the reading loop cannot unpack: not blank, and no equals
    sign. *)
Definition malformed (line : string) : bool :=
  truthy_str (strip line) && all_chars not_equals (strip line).

(** The key a line assigns, if it assigns one. *)
Definition key_of (line : string) : option string :=
  match split_eq_1 (strip line) with
  | Some (key, _) => Some key
  | None => None
  end.

(** One step of the reading loop on a well-formed line. *)
Definition assign_line (env_vars : dict string) (line : string) : dict string :=
  match split_eq_1 (strip line) with
  | Some (key, value) => dict_set env_vars key (strip_dquote value)
  | None => env_vars
  end.

(** The plugin's reading of a text. *)
Definition read_text (content : string) : outcome (dict string) :=
  SpliceOrcPlugin.read_env_vars (readlines (universal_newlines content)) [].

Definition is_log_event (ev : event) : bool :=
  match ev with EvLog _ _ => true | _ => false end.

Definition is_error_log (ev : event) : bool :=
  match ev with EvLog ERROR _ => true | _ => false end.

(** The lines [apply_pod_manager_yaml] logs. *)
Definition applying (yaml_file ns : string) : event :=
  EvLog INFO [Text ("Applying " +:+ yaml_file +:+ " in namespace " +:+ ns)].
Definition already_exists (err : Activation.api_exception) : event :=
  EvLog INFO [Text ("Resource already exists: " +:+ Activation.err_reason err)].
Definition error_creating (err : Activation.api_exception) : event :=
  EvLog ERROR [Text "Error creating resource: ";
               Exc (ApiException (Activation.err_status err))].

(** A computation takes every world to one that [R] relates to it. *)
Definition moves_along {St A} (R : World St → World St → Prop) (m : M St A)
  : Prop :=
  ∀ w, R w (final (m w)).

(** Only the state of the control plane differs. *)
Definition cluster_moved {St} (w w' : World St) : Prop :=
  ∃ s, w' = set_cluster w s.

Module Sample2.
Import SpliceOrcPlugin Activation.

(** A manifest that is already applied: both of its objects answer 409. *)
Definition applied : string → string → Cluster.state → yaml_answer * Cluster.state :=
  λ _ _ s, (FailToCreate [ {| err_status := 409; err_reason := "Conflict" |};
                           {| err_status := 409; err_reason := "Conflict" |} ], s).

(** A conflict, then a refusal, then an entry that is never looked at. *)
Definition refused_after_conflict : list api_exception :=
  [ {| err_status := 409; err_reason := "Conflict" |};
    {| err_status := 403; err_reason := "Forbidden" |};
    {| err_status := 409; err_reason := "Conflict" |} ].

Definition rejecting : string → string → Cluster.state → yaml_answer * Cluster.state :=
  λ _ _ s, (FailToCreate refused_after_conflict, s).

Definition yaml_path : string := "/plugin/managers/pod_manager_deployment.yml".

(** A store with one key on three lines. *)
Definition env_twice : string :=
  "A=1" +:+ String LF ("B=2" +:+ String LF ("A=3" +:+ String LF "")).

(** No client configuration can be loaded. *)
Definition unconfigured : World Cluster.state :=
  {| cluster := Cluster.empty; kube_config := false; incluster_config := false;
     env_file := Some Sample.env_text; environ := ∅; module_config := ∅;
     jac_program := false |}.

(** The manager service has neither status nor load balancer. *)
Definition bare_service : K8s.V1Service := {| K8s.status := None |}.
Definition bare : World Cluster.state :=
  world0 {| Cluster.namespaces := {[namespace]};
            Cluster.service_accounts := ∅; Cluster.roles := ∅;
            Cluster.role_bindings := ∅;
            Cluster.services := {[(namespace, service_name) := bare_service]};
            Cluster.fault := Cluster.no_fault |} (Some Sample.env_text).

(** The read of the manager service fails below the API. *)
Definition unreachable : K8s.api_call → option exn := λ c,
  match c with
  | K8s.read_namespaced_service _ _ => Some (Foreign "MaxRetryError")
  | _ => None
  end.
Definition offline : World Cluster.state :=
  world0 (Sample.cluster_of (Some [Sample.both]) unreachable)
    (Some Sample.env_text).

(** The service account appears between its read and its create. *)
Definition race : K8s.api_call → option exn := λ c,
  match c with
  | K8s.create_namespaced_service_account _ _ => Some (ApiException 409)
  | _ => None
  end.
Definition racing : World Cluster.state :=
  world0 (Sample.cluster_of None race) None.

(** A role of the plugin's name with no rules is already there. *)
Definition narrow_role : K8s.V1Role :=
  {| K8s.role_meta_name := role_name; K8s.role_meta_namespace := namespace;
     K8s.rules := [] |}.
Definition narrowed : World Cluster.state :=
  world0 {| Cluster.namespaces := {[namespace]};
            Cluster.service_accounts := ∅;
            Cluster.roles := {[(namespace, role_name) := narrow_role]};
            Cluster.role_bindings := ∅; Cluster.services := ∅;
            Cluster.fault := Cluster.no_fault |} None.

(** Module configurations: no [load_type], and a [load_type] that differs
    from the expected string in case only. *)
Definition no_load_type : World Cluster.state :=
  {| cluster := Cluster.empty; kube_config := true; incluster_config := false;
     env_file := None; environ := ∅;
     module_config := {["numpy" := ∅]}; jac_program := false |}.
Definition capitalised : World Cluster.state :=
  {| cluster := Cluster.empty; kube_config := true; incluster_config := false;
     env_file := None; environ := ∅;
     module_config := {["numpy" := {["load_type" := CfgStr "Remote"]}]};
     jac_program := false |}.

(** The manager is resolved and a remote module is configured; the
    environment holds no endpoint. *)
Definition resolved_remote : World Cluster.state :=
  {| cluster := Sample.cluster_of (Some [Sample.both]) Cluster.no_fault;
     kube_config := true; incluster_config := false;
     env_file := Some Sample.env_text; environ := ∅;
     module_config := {["numpy" := Sample.remote_config]};
     jac_program := false |}.

End Sample2.

(* ===================================================================== *)
(** ** Tactics to run the methods *)
(* ===================================================================== *)

Ltac unfold_run :=
  unfold result, final, events, Eff.bind, try_except, load_kube_config,
    load_incluster_config, call, logging_info, logging_error, emit, ret,
    raise, gets, getenv.

Ltac run_step :=
  match goal with
  | |- context [K8s.respond ?c ?s] =>
      destruct (K8s.respond c s) as [[?|?] ?] eqn:?; simpl
  | |- context [match ?e with ApiException _ => _ | _ => _ end] =>
      destruct e; simpl
  | |- context [if ?b then _ else _] => destruct b eqn:?; simpl
  | |- context [match ?o with Some _ => _ | None => _ end] =>
      destruct o eqn:?; simpl
  | |- context [match ?o with [] => _ | _ :: _ => _ end] =>
      destruct o eqn:?; simpl
  end.

Ltac ref_step Hff :=
  first
    [ rewrite Hff
    | progress cbn [Cluster.answer Cluster.not_found Cluster.conflict fst snd
                    Cluster.fault Cluster.namespaces Cluster.service_accounts
                    Cluster.roles Cluster.role_bindings Cluster.services
                    cluster set_cluster K8s.role_meta_name
                    K8s.binding_meta_name SpliceOrcPlugin.role
                    SpliceOrcPlugin.role_binding Z.eqb Pos.eqb]
    | match goal with
      | H : ?m !! ?k = _ |- context [?m !! ?k] => rewrite H
      end
    | case_decide
    | match goal with
      | |- context [match ?m !! ?k with Some _ => _ | None => _ end] =>
          destruct (m !! k) eqn:?
      end ].

(* ===================================================================== *)
(** ** Lemmas on [str] *)
(* ===================================================================== *)

Section StrLemmas.
Local Arguments String.append : simpl nomatch.
Implicit Types (s a b r : string) (c : ascii) (p q : ascii → bool).

Lemma append_assoc a b r : (a +:+ b) +:+ r = a +:+ (b +:+ r).
Proof. induction a as [|c a IH]; simpl; [done | by rewrite IH]. Qed.

Lemma append_nil_r a : a +:+ "" = a.
Proof. induction a as [|c a IH]; simpl; [done | by rewrite IH]. Qed.

Lemma all_chars_app q a b :
  all_chars q (a +:+ b) = all_chars q a && all_chars q b.
Proof.
  induction a as [|c a IH]; simpl; [done |].
  rewrite IH. by destruct (q c).
Qed.

Lemma all_chars_lstrip q p s :
  all_chars q s = true → all_chars q (lstrip_by p s) = true.
Proof.
  induction s as [|c s IH]; simpl; [done |].
  intros [Hc Hs]%andb_true_iff. destruct (p c); [by apply IH |].
  simpl. by rewrite Hc, Hs.
Qed.

Lemma all_chars_rstrip q p s :
  all_chars q s = true → all_chars q (rstrip_by p s) = true.
Proof.
  induction s as [|c s IH]; simpl; [done |].
  intros [Hc Hs]%andb_true_iff. specialize (IH Hs).
  destruct (rstrip_by p s) as [|c' r'].
  - destruct (p c); simpl; [done | by rewrite Hc].
  - simpl in *. by rewrite Hc, IH.
Qed.

Lemma all_chars_strip q p s :
  all_chars q s = true → all_chars q (strip_by p s) = true.
Proof. intros. by apply all_chars_rstrip, all_chars_lstrip. Qed.

Lemma lstrip_starts p s : starts_clear p (lstrip_by p s) = true.
Proof.
  induction s as [|c s IH]; simpl; [done |].
  destruct (p c) eqn:E; [done |]. simpl. by rewrite E.
Qed.

Lemma rstrip_starts p s :
  starts_clear p s = true → starts_clear p (rstrip_by p s) = true.
Proof.
  destruct s as [|c s]; simpl; [done |].
  intros Hc. destruct (rstrip_by p s); simpl; [| done].
  destruct (p c) eqn:E; simpl; [done | by rewrite E].
Qed.

Lemma rstrip_ends p s : ends_clear p (rstrip_by p s) = true.
Proof.
  induction s as [|c s IH]; simpl; [done |].
  destruct (rstrip_by p s) as [|c' r'] eqn:E.
  - destruct (p c) eqn:Ec; simpl; [done | by rewrite Ec].
  - done.
Qed.

Lemma lstrip_id p s : starts_clear p s = true → lstrip_by p s = s.
Proof. destruct s as [|c s]; simpl; [done |]. by destruct (p c). Qed.

Lemma rstrip_id p s : ends_clear p s = true → rstrip_by p s = s.
Proof.
  induction s as [|c s IH]; [done |].
  cbn [ends_clear rstrip_by]. destruct s as [|c' s'].
  - simpl. by destruct (p c).
  - intros H. by rewrite (IH H).
Qed.

Lemma strip_id p s :
  starts_clear p s = true → ends_clear p s = true → strip_by p s = s.
Proof. intros H1 H2. unfold strip_by. by rewrite lstrip_id, rstrip_id. Qed.

Lemma rstrip_snoc p a c :
  p c = true → rstrip_by p (a +:+ String c "") = rstrip_by p a.
Proof.
  intros Hc. induction a as [|x a IH]; simpl.
  - by rewrite Hc.
  - by rewrite IH.
Qed.

Lemma strip_snoc p a c :
  p c = true → strip_by p (a +:+ String c "") = strip_by p a.
Proof.
  intros Hc. unfold strip_by. induction a as [|x a IH]; simpl.
  - by rewrite Hc.
  - destruct (p x); [done |].
    change (String x (a +:+ String c "")) with (String x a +:+ String c "").
    by apply rstrip_snoc.
Qed.

Lemma ends_clear_snoc p a c : ends_clear p (a +:+ String c "") = negb (p c).
Proof.
  induction a as [|x a IH]; [done |].
  simpl. destruct (a +:+ String c "") eqn:E; [| done].
  by destruct a.
Qed.

Lemma split_eq_1_app k v :
  all_chars not_equals k = true →
  split_eq_1 (k +:+ String equals v) = Some (k, v).
Proof.
  induction k as [|c k IH]; simpl; [done |].
  intros [Hc Hk]%andb_true_iff. unfold not_equals in Hc.
  destruct (Ascii.eqb c equals); [done |]. by rewrite IH.
Qed.

Lemma split_eq_1_Some s k v :
  split_eq_1 s = Some (k, v) →
  s = k +:+ String equals v ∧ all_chars not_equals k = true.
Proof.
  revert k v. induction s as [|c s IH]; simpl; [done |]. intros k v.
  destruct (Ascii.eqb c equals) eqn:E.
  - intros [= <- <-]. apply Ascii.eqb_eq in E as ->. done.
  - destruct (split_eq_1 s) as [[k' v']|]; [| done].
    intros [= <- <-]. destruct (IH _ _ eq_refl) as [-> Hk].
    split; [done |]. simpl. unfold not_equals at 1. by rewrite E.
Qed.

End StrLemmas.

Section FileLemmas.
Local Arguments String.append : simpl nomatch.
Implicit Types (s a b r l : string) (c : ascii).

Lemma one_line_not_CR s : one_line s = true → all_chars not_CR s = true.
Proof.
  unfold one_line. induction s as [|c s IH]; simpl; [done |].
  intros [[_ Hc]%andb_true_iff Hs]%andb_true_iff.
  unfold not_CR at 1. rewrite Hc. by apply IH.
Qed.

Lemma universal_newlines_id s :
  all_chars not_CR s = true → universal_newlines s = s.
Proof.
  induction s as [|c s IH]; simpl; [done |].
  intros [Hc Hs]%andb_true_iff. unfold not_CR in Hc.
  destruct (Ascii.eqb c CR); [done |]. by rewrite IH.
Qed.

Lemma universal_newlines_no_CR s :
  all_chars not_CR (universal_newlines s) = true.
Proof.
  cut (all_chars not_CR (universal_newlines s) = true
       ∧ ∀ c, all_chars not_CR (universal_newlines (String c s)) = true).
  { by intros [? _]. }
  induction s as [|x s [IH1 IH2]].
  - split; [done |]. intros c. simpl.
    destruct (Ascii.eqb c CR) eqn:E; simpl; [done |].
    unfold not_CR. by rewrite E.
  - split; [apply IH2 |]. intros c.
    cbn [universal_newlines]. fold (universal_newlines (String x s)).
    destruct (Ascii.eqb c CR) eqn:E.
    + cbn [all_chars]. destruct (Ascii.eqb x LF); [apply IH1 | apply IH2].
    + cbn [all_chars]. unfold not_CR at 1. rewrite E. apply IH2.
Qed.

Lemma readlines_line a rest :
  one_line a = true →
  readlines (a +:+ String LF rest) = (a +:+ String LF "") :: readlines rest.
Proof.
  unfold one_line. induction a as [|c a IH]; simpl; [done |].
  intros [[Hc _]%andb_true_iff Ha]%andb_true_iff.
  destruct (Ascii.eqb c LF); [done |]. by rewrite (IH Ha).
Qed.

Lemma readlines_shaped s :
  all_chars not_CR s = true → Forall line_shaped (readlines s).
Proof.
  induction s as [|c s IH]; simpl; [constructor |].
  intros [Hc Hs]%andb_true_iff. specialize (IH Hs).
  destruct (Ascii.eqb c LF) eqn:E.
  - constructor; [| done]. exists "". split; [done |]. right.
    apply Ascii.eqb_eq in E as ->. done.
  - assert (not_linebreak c = true) as Hnl.
    { unfold not_linebreak. rewrite E. exact Hc. }
    destruct (readlines s) as [|l ls].
    + constructor; [| done]. exists (String c ""). split; [| by left].
      unfold one_line. simpl. by rewrite Hnl.
    + inversion IH as [|? ? (a & Ha & Hl) Hls]; subst.
      constructor; [| done]. exists (String c a). split.
      * unfold one_line in *. simpl. by rewrite Hnl.
      * destruct Hl as [-> | ->]; [by left | by right].
Qed.

Lemma strip_shaped l :
  line_shaped l → one_line (strip l) = true.
Proof.
  intros (a & Ha & [-> | ->]); unfold strip.
  - by apply all_chars_strip.
  - rewrite strip_snoc by done. by apply all_chars_strip.
Qed.

Lemma strip_starts l : starts_clear isspace (strip l) = true.
Proof. apply rstrip_starts, lstrip_starts. Qed.

End FileLemmas.

Section DictLemmas.
Context {V : Type}.
Implicit Types (d acc : dict V) (k : string) (v : V).

Lemma dict_get_set_eq d k v : dict_get (dict_set d k v) k = Some v.
Proof.
  induction d as [|[k' v'] d IH]; simpl.
  - by rewrite String.eqb_refl.
  - destruct (String.eqb k' k) eqn:E; simpl; rewrite E; [done | apply IH].
Qed.

Lemma dict_get_set_ne d k k' v :
  k ≠ k' → dict_get (dict_set d k v) k' = dict_get d k'.
Proof.
  intros Hne. induction d as [|[k0 v0] d IH]; simpl.
  - destruct (String.eqb_spec k k'); [done | done].
  - destruct (String.eqb_spec k0 k) as [-> | Hk0]; simpl.
    + destruct (String.eqb_spec k k'); [done | done].
    + destruct (String.eqb_spec k0 k'); [done | apply IH].
Qed.

Lemma dict_set_keys d k v :
  (dict_set d k v).*1 = if bool_decide (k ∈ d.*1) then d.*1 else d.*1 ++ [k].
Proof.
  induction d as [|[k0 v0] d IH]; [done |].
  cbn [dict_set]. destruct (String.eqb_spec k0 k) as [-> | Hne];
    rewrite !fmap_cons; cbn [fst].
  - rewrite bool_decide_eq_true_2; [done | by left].
  - rewrite IH. destruct (bool_decide (k ∈ d.*1)) eqn:E.
    + apply bool_decide_eq_true_1 in E.
      rewrite bool_decide_eq_true_2; [done | by right].
    + apply bool_decide_eq_false_1 in E.
      rewrite bool_decide_eq_false_2; [done |].
      intros [? | ?]%elem_of_cons; congruence.
Qed.

Lemma dict_set_NoDup d k v : NoDup d.*1 → NoDup (dict_set d k v).*1.
Proof.
  intros Hd. rewrite dict_set_keys. case_bool_decide as E; [done |].
  apply NoDup_app. split_and!; [done | | apply NoDup_singleton].
  intros x Hx ->%list_elem_of_singleton. done.
Qed.

Lemma dict_set_fresh d k v : k ∉ d.*1 → dict_set d k v = d ++ [(k, v)].
Proof.
  induction d as [|[k0 v0] d IH]; simpl; [done |].
  intros [Hne Hd]%not_elem_of_cons.
  destruct (String.eqb_spec k0 k); [congruence |]. by rewrite IH.
Qed.

Lemma dict_set_Forall (P : string * V → Prop) d k v :
  Forall P d → P (k, v) → (∀ k0 v0, P (k0, v0) → k0 = k → P (k0, v)) →
  Forall P (dict_set d k v).
Proof.
  intros Hd Hkv Hrepl. induction Hd as [|[k0 v0] d H0 Hd IH]; simpl.
  - by constructor.
  - destruct (String.eqb_spec k0 k) as [-> | Hne];
      constructor; eauto.
Qed.

Lemma foldl_dict_set_fresh d acc :
  NoDup (acc.*1 ++ d.*1) →
  foldl (λ a kv, dict_set a kv.1 kv.2) acc d = acc ++ d.
Proof.
  revert acc. induction d as [|[k v] d IH]; intros acc Hnd; simpl.
  - by rewrite app_nil_r.
  - simpl in Hnd. apply NoDup_app in Hnd as (Hacc & Hdisj & Hd).
    apply NoDup_cons in Hd as [Hk Hd].
    rewrite dict_set_fresh.
    + rewrite IH; [by rewrite <- app_assoc |].
      rewrite fmap_app. simpl. apply NoDup_app. split_and!.
      * apply NoDup_app. split_and!; [done | | apply NoDup_singleton].
        intros x Hx ->%list_elem_of_singleton. apply (Hdisj _ Hx). by left.
      * intros x [Hx | ->%list_elem_of_singleton]%elem_of_app Hx'; [| done].
        apply (Hdisj _ Hx). by right.
      * done.
    + intros Hin. apply (Hdisj _ Hin). by left.
Qed.

End DictLemmas.

Section StoreLemmas.
Local Arguments String.append : simpl nomatch.
Import SpliceOrcPlugin.

Lemma env_line_body kv rest :
  env_line kv +:+ rest = line_body kv +:+ String LF rest.
Proof.
  unfold env_line, line_body. rewrite !append_assoc. simpl.
  by rewrite !append_assoc.
Qed.

Lemma clean_value_strip v :
  one_line v = true → clean_entry ("", strip_dquote v).
Proof.
  intros Hv. unfold clean_entry, strip_dquote; simpl. split_and!; try done.
  - by apply all_chars_strip.
  - apply rstrip_starts, lstrip_starts.
  - apply rstrip_ends.
Qed.

Lemma clean_of_split l k v :
  line_shaped l → split_eq_1 (strip l) = Some (k, v) →
  clean_entry (k, strip_dquote v).
Proof.
  intros Hl Hsplit. pose proof (strip_shaped _ Hl) as Hone.
  pose proof (strip_starts l) as Hstart.
  apply split_eq_1_Some in Hsplit as [Heq Hk]. rewrite Heq in Hone, Hstart.
  unfold one_line in Hone. rewrite all_chars_app in Hone.
  apply andb_true_iff in Hone as [Hk1 Hv1]. simpl in Hv1.
  assert (one_line v = true) as Hv by (by destruct (not_linebreak equals)).
  destruct (clean_value_strip v Hv) as (_ & _ & _ & ? & ? & ?).
  unfold clean_entry; simpl. split_and!; try done.
  by destruct k.
Qed.

Lemma read_env_vars_clean lines acc d :
  Forall line_shaped lines → Forall clean_entry acc → NoDup acc.*1 →
  read_env_vars lines acc = Returned d →
  Forall clean_entry d ∧ NoDup d.*1.
Proof.
  intros Hlines. revert acc.
  induction Hlines as [|l lines Hl Hlines IH]; intros acc Hacc Hnd; simpl.
  - by intros [= <-].
  - destruct (truthy_str (strip l)); [| by apply IH].
    destruct (split_eq_1 (strip l)) as [[k v]|] eqn:Hsplit; [| done].
    pose proof (clean_of_split _ _ _ Hl Hsplit) as Hkv.
    apply IH.
    + apply dict_set_Forall; [done | done |].
      intros k0 v0 (? & ? & ? & _) ->.
      destruct Hkv as (_ & _ & _ & ? & ? & ?). by split_and!.
    + by apply dict_set_NoDup.
Qed.

Lemma line_body_one_line kv : clean_entry kv → one_line (line_body kv) = true.
Proof.
  intros (Hk & _ & _ & Hv & _ & _). unfold line_body, one_line in *.
  rewrite all_chars_app, Hk. simpl. by rewrite all_chars_app, Hv.
Qed.

Lemma line_body_strip kv : clean_entry kv → strip (line_body kv) = line_body kv.
Proof.
  intros (_ & _ & Hk & _ & _ & _). apply strip_id.
  - unfold line_body. by destruct (kv.1).
  - unfold line_body.
    change (String equals (String dquote (kv.2 +:+ String dquote "")))
      with (String equals (String dquote "") +:+ (kv.2 +:+ String dquote "")).
    rewrite <- !append_assoc. by rewrite ends_clear_snoc.
Qed.

Lemma line_body_truthy kv : truthy_str (line_body kv) = true.
Proof. unfold line_body. by destruct (kv.1). Qed.

Lemma line_body_split kv :
  clean_entry kv →
  split_eq_1 (line_body kv)
  = Some (kv.1, String dquote (kv.2 +:+ String dquote "")).
Proof. intros (_ & Hk & _). by apply split_eq_1_app. Qed.

Lemma strip_dquote_quoted v :
  starts_clear (Ascii.eqb dquote) v = true →
  ends_clear (Ascii.eqb dquote) v = true →
  strip_dquote (String dquote (v +:+ String dquote "")) = v.
Proof.
  intros Hs He. unfold strip_dquote, strip_by. simpl.
  destruct v as [|c v]; [done |].
  rewrite lstrip_id by done.
  rewrite rstrip_snoc by done. by apply rstrip_id.
Qed.

Lemma read_write_env_vars d acc :
  Forall clean_entry d →
  read_env_vars (readlines (write_env_vars d)) acc
  = Returned (foldl (λ a kv, dict_set a kv.1 kv.2) acc d).
Proof.
  intros Hd. revert acc. induction Hd as [|kv d Hkv Hd IH]; intros acc.
  - done.
  - cbn [write_env_vars foldr foldl]. fold (write_env_vars d).
    rewrite env_line_body, readlines_line by by apply line_body_one_line.
    cbn [read_env_vars].
    replace (strip (line_body kv +:+ String LF ""))
      with (line_body kv)
      by (unfold strip; rewrite strip_snoc by done;
          symmetry; by apply line_body_strip).
    rewrite line_body_truthy, line_body_split by done.
    destruct Hkv as (_ & _ & _ & _ & ? & ?).
    rewrite strip_dquote_quoted by done. apply IH.
Qed.

Lemma write_env_vars_not_CR d :
  Forall clean_entry d → all_chars not_CR (write_env_vars d) = true.
Proof.
  induction 1 as [|kv d Hkv Hd IH]; [done |].
  cbn [write_env_vars foldr]. fold (write_env_vars d).
  rewrite env_line_body, all_chars_app. simpl. rewrite IH.
  by rewrite (one_line_not_CR _ (line_body_one_line _ Hkv)).
Qed.

(** Reading back what was written gives the dictionary written. *)
Lemma read_back_written d :
  Forall clean_entry d → NoDup d.*1 →
  read_env_vars (readlines (universal_newlines (write_env_vars d))) [] = Returned d.
Proof.
  intros Hd Hnd.
  rewrite universal_newlines_id by by apply write_env_vars_not_CR.
  rewrite read_write_env_vars by done.
  by rewrite foldl_dict_set_fresh.
Qed.

(** What the plugin reads from any file is clean. *)
Lemma read_any_clean content d :
  read_env_vars (readlines (universal_newlines content)) [] = Returned d →
  Forall clean_entry d ∧ NoDup d.*1.
Proof.
  apply read_env_vars_clean; [| constructor | constructor].
  apply readlines_shaped, universal_newlines_no_CR.
Qed.

Lemma clean_pod_manager_url addr :
  one_line addr = true →
  clean_entry (POD_MANAGER_URL, "http://" +:+ addr +:+ ":8000").
Proof.
  intros Ha. unfold clean_entry. cbn [fst snd]. split_and!; try done.
  - unfold one_line in *. by rewrite !all_chars_app, Ha.
  - change (":8000") with (":800" +:+ String "0" "").
    rewrite <- !append_assoc. by rewrite ends_clear_snoc.
Qed.

End StoreLemmas.

(* ===================================================================== *)
(** ** Running the methods *)
(* ===================================================================== *)



Section Resolution.
Context {St : Type} `{!K8s.ControlPlane St}.
Import SpliceOrcPlugin.
Implicit Types (w : World St) (s : St).

Lemma set_cluster_id w : set_cluster w (cluster w) = w.
Proof. by destruct w. Qed.

Lemma load_config_run w :
  config_loadable w →
  ∃ t, load_config w = (Returned tt, w, t)
       ∧ api_calls t = [] ∧ file_events t = [].
Proof.
  intros Hc. unfold load_config. unfold_run.
  destruct (kube_config w) eqn:E1; [by eexists |].
  destruct Hc as [Hc | Hc]; [congruence |]. rewrite Hc. by eexists.
Qed.

Lemma get_loadbalancer_url_frame name ns w :
  ∃ s, final (get_loadbalancer_url name ns w) = set_cluster w s.
Proof.
  unfold get_loadbalancer_url, load_config, service_ingress. unfold_run. simpl.
  repeat run_step; try by eexists.
  exists (cluster w). by rewrite set_cluster_id.
Qed.

Lemma get_loadbalancer_url_truthy name ns w a :
  result (get_loadbalancer_url name ns w) = Returned (Some a) →
  truthy_str a = true.
Proof.
  unfold get_loadbalancer_url, load_config, service_ingress. unfold_run. simpl.
  repeat run_step; intros [= Ha]; try done.
  all: match goal with
       | H : truthy_opt_str ?o = true |- _ => rewrite Ha in H; exact H
       end.
Qed.

Lemma get_loadbalancer_url_no_file name ns w :
  file_events (events (get_loadbalancer_url name ns w)) = [].
Proof.
  unfold get_loadbalancer_url, load_config, service_ingress. unfold_run. simpl.
  by repeat run_step.
Qed.

Lemma get_loadbalancer_url_ok name ns w service s status lb :
  config_loadable w →
  K8s.respond (K8s.read_namespaced_service name ns) (cluster w)
  = (K8s.ApiOk service, s) →
  K8s.status service = Some status →
  K8s.load_balancer status = Some lb →
  ∃ t, get_loadbalancer_url name ns w
       = (Returned (first_entry_address (K8s.ingress lb)), set_cluster w s, t)
       ∧ api_calls t = [(K8s.read_namespaced_service name ns, None)].
Proof.
  intros Hc Hr Hst Hlb. destruct (load_config_run w Hc) as (t0 & Hl & Ht0 & _).
  unfold get_loadbalancer_url, service_ingress.
  unfold Eff.bind at 1. rewrite Hl.
  unfold_run. rewrite Hr. simpl. rewrite Hst, Hlb. simpl.
  assert (∀ t1, api_calls (t0 ++ EvApi (K8s.read_namespaced_service name ns) None :: t1)
                = (K8s.read_namespaced_service name ns, None) :: api_calls t1)
    as Hcalls.
  { intros t1. unfold api_calls in *. by rewrite omap_app, Ht0. }
  destruct (K8s.ingress lb) as [[|entry rest]|] eqn:Hi; simpl;
    [by eexists | | by eexists].
  destruct (K8s.ip entry) as [[|c a]|], (K8s.hostname entry) as [[|c' h]|];
    simpl; eexists; (split; [done |]); by rewrite Hcalls.
Qed.

Lemma get_loadbalancer_url_api_exception name ns w status s :
  config_loadable w →
  K8s.respond (K8s.read_namespaced_service name ns) (cluster w)
  = (K8s.ApiFail (ApiException status), s) →
  ∃ t, get_loadbalancer_url name ns w = (Returned None, set_cluster w s, t)
       ∧ api_calls t
         = [(K8s.read_namespaced_service name ns, Some (ApiException status))].
Proof.
  intros Hc Hr. destruct (load_config_run w Hc) as (t0 & Hl & Ht0 & _).
  unfold get_loadbalancer_url, service_ingress.
  unfold Eff.bind at 1. rewrite Hl.
  unfold_run. rewrite Hr. simpl.
  eexists. split; [done |]. unfold api_calls in *.
  rewrite omap_app, Ht0. done.
Qed.

Lemma no_ingress_no_address ingress :
  no_ingress_address ingress → first_entry_address ingress = None.
Proof.
  intros [-> | [-> | (entry & rest & -> & Hip & Hh)]]; [done | done |].
  unfold first_entry_address.
  destruct Hip as [-> | ->], Hh as [-> | ->]; done.
Qed.

Lemma configure_unresolved ns w :
  result (get_loadbalancer_url service_name ns w) = Returned None →
  configure_pod_manager_url ns w
  = (Returned tt, final (get_loadbalancer_url service_name ns w),
     events (get_loadbalancer_url service_name ns w)
     ++ [EvLog ERROR [Text "Failed to retrieve the pod_manager_url."]]).
Proof.
  unfold configure_pod_manager_url. unfold Eff.bind at 1.
  destruct (get_loadbalancer_url service_name ns w) as [[r w1] t1].
  unfold result, final, events. simpl. by intros ->.
Qed.

Lemma existing_env_vars_run w :
  existing_env_vars w
  = (stored w, w,
     match env_file w with Some _ => [EvReadEnvFile] | None => [] end).
Proof.
  unfold stored, existing_env_vars, read_env_file. unfold_run.
  destruct w as [? ? ? [c|] ? ? ?]; simpl; [| done].
  by destruct (read_env_vars _ _).
Qed.

Lemma stored_set_cluster w s : stored (set_cluster w s) = stored w.
Proof.
  unfold stored, existing_env_vars, read_env_file. unfold_run.
  destruct w as [? ? ? [c|] ? ? ?]; simpl; [| done].
  by destruct (read_env_vars _ _).
Qed.

Lemma configure_resolved_run ns w addr old w1 t1 :
  get_loadbalancer_url service_name ns w = (Returned (Some addr), w1, t1) →
  stored w1 = Returned old →
  let url := "http://" +:+ addr +:+ ":8000" in
  let content := write_env_vars (dict_set old POD_MANAGER_URL url) in
  configure_pod_manager_url ns w
  = (Returned tt, set_env_file w1 (Some content),
     t1 ++ match env_file w1 with Some _ => [EvReadEnvFile] | None => [] end
        ++ [EvWriteEnvFile content;
            EvLog INFO [Text ("Pod manager URL updated in .env file: " +:+ url)]]).
Proof.
  intros Hrun Hold url content.
  assert (truthy_str addr = true) as Htr.
  { apply (get_loadbalancer_url_truthy service_name ns w). by rewrite Hrun. }
  unfold configure_pod_manager_url. unfold Eff.bind at 1. rewrite Hrun.
  cbn [truthy_opt_str fmt_opt]. rewrite Htr.
  unfold Eff.bind at 1. rewrite existing_env_vars_run, Hold.
  unfold write_env_file. unfold_run. simpl.
  done.
Qed.

Lemma configure_resolved ns w addr old :
  result (get_loadbalancer_url service_name ns w) = Returned (Some addr) →
  stored w = Returned old →
  let url := "http://" +:+ addr +:+ ":8000" in
  let content := write_env_vars (dict_set old POD_MANAGER_URL url) in
  result (configure_pod_manager_url ns w) = Returned tt
  ∧ env_file (final (configure_pod_manager_url ns w)) = Some content
  ∧ file_events (events (configure_pod_manager_url ns w))
    = match env_file w with Some _ => [EvReadEnvFile] | None => [] end
      ++ [EvWriteEnvFile content].
Proof.
  intros Hres Hold url content.
  pose proof (get_loadbalancer_url_no_file service_name ns w) as Hnf.
  destruct (get_loadbalancer_url_frame service_name ns w) as [s Hs].
  destruct (get_loadbalancer_url service_name ns w) as [[r w1] t1] eqn:Hrun.
  unfold result, final, events in Hres, Hs, Hnf. simpl in Hres, Hs, Hnf.
  subst r w1.
  rewrite (configure_resolved_run ns w addr old _ _ Hrun)
    by by rewrite stored_set_cluster.
  unfold result, final, events. simpl. split_and!; [done | done |].
  unfold file_events in *. rewrite List.filter_app, Hnf. simpl.
  by destruct (env_file w).
Qed.

End Resolution.

(* ===================================================================== *)
(** ** Endpoint resolution and persistence *)
(* ===================================================================== *)

Section ResolutionClaims.
Context {St : Type} `{!K8s.ControlPlane St}.
Import SpliceOrcPlugin.
Implicit Types (w : World St) (s : St).

(** C9.  [get_loadbalancer_url] looks at the first ingress entry only:
    it returns that entry's IP when present, otherwise its hostname when
    present, otherwise no address; with no entry it returns no address;
    and an [ApiException] from reading the service gives no address, not
    an exception. *)
Theorem get_loadbalancer_url_first_entry name ns w :
  config_loadable w →
  (∀ service s status lb,
      K8s.respond (K8s.read_namespaced_service name ns) (cluster w)
      = (K8s.ApiOk service, s) →
      K8s.status service = Some status →
      K8s.load_balancer status = Some lb →
      match K8s.ingress lb with
      | Some (entry :: _) =>
          (present (K8s.ip entry) →
           result (get_loadbalancer_url name ns w) = Returned (K8s.ip entry))
          ∧ (absent (K8s.ip entry) → present (K8s.hostname entry) →
             result (get_loadbalancer_url name ns w)
             = Returned (K8s.hostname entry))
          ∧ (absent (K8s.ip entry) → absent (K8s.hostname entry) →
             result (get_loadbalancer_url name ns w) = Returned None)
      | _ => result (get_loadbalancer_url name ns w) = Returned None
      end)
  ∧ (∀ status s,
        K8s.respond (K8s.read_namespaced_service name ns) (cluster w)
        = (K8s.ApiFail (ApiException status), s) →
        result (get_loadbalancer_url name ns w) = Returned None).
Proof.
  intros Hc. split.
  - intros service s status lb Hr Hst Hlb.
    destruct (get_loadbalancer_url_ok _ _ _ _ _ _ _ Hc Hr Hst Hlb)
      as (t & -> & _).
    unfold result. cbn [fst].
    destruct (K8s.ingress lb) as [[|entry rest]|]; [done | | done].
    unfold first_entry_address. split_and!.
    + intros (a & -> & Ha). by destruct a, (K8s.hostname entry).
    + intros [-> | ->] (h & -> & Hh); by destruct h.
    + intros [-> | ->] [-> | ->]; done.
  - intros status s Hr.
    by destruct (get_loadbalancer_url_api_exception _ _ _ _ _ Hc Hr)
      as (t & -> & _).
Qed.

(** C7, as the code has it.  A service whose first ingress entry reports
    both an IP and a hostname resolves to the IP; what later entries
    report plays no part. *)
Theorem get_loadbalancer_url_prefers_ip name ns w service s status lb
    entry rest a h :
  config_loadable w →
  K8s.respond (K8s.read_namespaced_service name ns) (cluster w)
  = (K8s.ApiOk service, s) →
  K8s.status service = Some status →
  K8s.load_balancer status = Some lb →
  K8s.ingress lb = Some (entry :: rest) →
  K8s.ip entry = Some a → a ≠ "" →
  K8s.hostname entry = Some h → h ≠ "" →
  result (get_loadbalancer_url name ns w) = Returned (Some a).
Proof.
  intros Hc Hr Hst Hlb Hi Hip Ha Hh _.
  destruct (get_loadbalancer_url_ok _ _ _ _ _ _ _ Hc Hr Hst Hlb)
    as (t & -> & _).
  unfold result. cbn [fst]. rewrite Hi. unfold first_entry_address.
  rewrite Hip, Hh. by destruct a.
Qed.

(** C2, as the code has it.  Against a manager service with no assigned
    ingress address, [get_loadbalancer_url] returns no address after a
    single read, and [configure_pod_manager_url] logs the failure and
    returns normally: it raises nothing and leaves [.env] as it was. *)
Theorem configure_pod_manager_url_unready ns w service s status lb :
  config_loadable w →
  K8s.respond (K8s.read_namespaced_service service_name ns) (cluster w)
  = (K8s.ApiOk service, s) →
  K8s.status service = Some status →
  K8s.load_balancer status = Some lb →
  no_ingress_address (K8s.ingress lb) →
  result (get_loadbalancer_url service_name ns w) = Returned None
  ∧ result (configure_pod_manager_url ns w) = Returned tt
  ∧ env_file (final (configure_pod_manager_url ns w)) = env_file w
  ∧ api_calls (events (configure_pod_manager_url ns w))
    = [(K8s.read_namespaced_service service_name ns, None)]
  ∧ last (events (configure_pod_manager_url ns w))
    = Some (EvLog ERROR [Text "Failed to retrieve the pod_manager_url."]).
Proof.
  intros Hc Hr Hst Hlb Hno.
  destruct (get_loadbalancer_url_ok _ _ _ _ _ _ _ Hc Hr Hst Hlb)
    as (t & Hrun & Ht).
  rewrite (no_ingress_no_address _ Hno) in Hrun.
  assert (result (get_loadbalancer_url service_name ns w) = Returned None)
    as Hres by by rewrite Hrun.
  rewrite (configure_unresolved _ _ Hres), Hrun.
  unfold result, final, events. cbn [fst snd].
  split_and!; [done | done | done | |].
  - unfold api_calls in *. rewrite omap_app, Ht. done.
  - by rewrite last_snoc.
Qed.

(** C10.  When no address is resolved, [configure_pod_manager_url] never
    opens [.env]: the file, with any endpoint persisted earlier, is left
    as it was. *)
Theorem configure_pod_manager_url_no_write ns w :
  result (get_loadbalancer_url service_name ns w) = Returned None →
  env_file (final (configure_pod_manager_url ns w)) = env_file w
  ∧ file_events (events (configure_pod_manager_url ns w)) = [].
Proof.
  intros Hres. rewrite (configure_unresolved _ _ Hres).
  unfold final, events. cbn [fst snd].
  destruct (get_loadbalancer_url_frame service_name ns w) as [s Hs].
  unfold final in Hs. rewrite Hs. split; [done |].
  pose proof (get_loadbalancer_url_no_file service_name ns w) as Hnf.
  unfold file_events, events in *. by rewrite List.filter_app, Hnf.
Qed.

Lemma stored_Some w content :
  env_file w = Some content →
  stored w = read_env_vars (readlines (universal_newlines content)) [].
Proof.
  unfold stored, existing_env_vars, read_env_file. unfold_run.
  destruct w as [? ? ? f ? ? ?]; simpl. intros ->. simpl.
  by destruct (read_env_vars _ _).
Qed.

Lemma stored_cases w old :
  stored w = Returned old →
  (env_file w = None ∧ old = [])
  ∨ ∃ content, env_file w = Some content
               ∧ read_env_vars (readlines (universal_newlines content)) []
                 = Returned old.
Proof.
  unfold stored. rewrite existing_env_vars_run.
  unfold stored, existing_env_vars, read_env_file. unfold_run.
  destruct w as [? ? ? [c|] ? ? ?]; simpl.
  - intros Hold. right. exists c. split; [done |].
    by destruct (read_env_vars _ _).
  - intros [= <-]. by left.
Qed.

Lemma stored_clean w old :
  stored w = Returned old → Forall clean_entry old ∧ NoDup old.*1.
Proof.
  intros [[_ ->] | (c & _ & Hc)]%stored_cases.
  - split; constructor.
  - by apply (read_any_clean c).
Qed.


(** When the file that is there cannot be read as key=value lines, the
    failure is raised before [.env] is opened for writing. *)
Lemma configure_pod_manager_url_unreadable ns w addr e :
  result (get_loadbalancer_url service_name ns w) = Returned (Some addr) →
  stored w = Raised e →
  result (configure_pod_manager_url ns w) = Raised e
  ∧ env_file (final (configure_pod_manager_url ns w)) = env_file w.
Proof.
  intros Hres Hold.
  pose proof (get_loadbalancer_url_truthy _ _ _ _ Hres) as Htr.
  destruct (get_loadbalancer_url_frame service_name ns w) as [s Hs].
  unfold configure_pod_manager_url, Eff.bind.
  destruct (get_loadbalancer_url service_name ns w) as [[r w1] t1] eqn:Hrun.
  unfold result, final in Hres, Hs. cbn [fst snd] in Hres, Hs. subst r w1.
  cbn [truthy_opt_str]. rewrite Htr.
  rewrite existing_env_vars_run, stored_set_cluster, Hold.
  unfold result, final. cbn [fst snd]. by destruct w.
Qed.

End ResolutionClaims.

Section ResolutionWitnesses.
Import SpliceOrcPlugin.

Lemma get_loadbalancer_url_first_entry_witness :
  result (get_loadbalancer_url service_name namespace Sample.ready)
  = Returned (Some "10.0.0.7")
  ∧ result (get_loadbalancer_url service_name namespace Sample.unready_entry)
    = Returned None
  ∧ result (get_loadbalancer_url service_name namespace Sample.refused)
    = Returned None.
Proof.
  split_and!.
  - refine (proj1 (proj1 (get_loadbalancer_url_first_entry service_name
              namespace Sample.ready (or_introl eq_refl))
              (Sample.service_of (Some [Sample.both; Sample.only_hostname]))
              (cluster Sample.ready) _ _ _ eq_refl eq_refl) _).
    + vm_compute. reflexivity.
    + exists "10.0.0.7". split; [reflexivity | discriminate].
  - refine (proj2 (proj2 (proj1 (get_loadbalancer_url_first_entry service_name
              namespace Sample.unready_entry (or_introl eq_refl))
              (Sample.service_of (Some [Sample.pending; Sample.both]))
              (cluster Sample.unready_entry) _ _ _ eq_refl eq_refl)) _ _).
    + vm_compute. reflexivity.
    + left. reflexivity.
    + left. reflexivity.
  - refine (proj2 (get_loadbalancer_url_first_entry service_name
              namespace Sample.refused (or_introl eq_refl))
              403 (cluster Sample.refused) _).
    vm_compute. reflexivity.
Defined.

(** C7, as stated, fails.  The ingress of the service reports an IP and a
    hostname, the hostname on its first entry and the IP on its second;
    the resolution returns the hostname. *)
Lemma get_loadbalancer_url_prefers_ip_counterexample :
  reports K8s.ip (Some Sample.split_ingress) "10.0.0.7"
  ∧ reports K8s.hostname (Some Sample.split_ingress) "manager.example"
  ∧ Cluster.services (cluster Sample.split) !! (namespace, service_name)
    = Some (Sample.service_of (Some Sample.split_ingress))
  ∧ result (get_loadbalancer_url service_name namespace Sample.split)
    = Returned (Some "manager.example").
Proof.
  split_and!.
  - exists Sample.split_ingress, Sample.only_ip.
    split_and!; [done | | done | done].
    unfold Sample.split_ingress. set_solver.
  - exists Sample.split_ingress, Sample.only_hostname.
    split_and!; [done | | done | done].
    unfold Sample.split_ingress. set_solver.
  - by vm_compute.
  - by vm_compute.
Qed.

Lemma get_loadbalancer_url_prefers_ip_witness :
  result (get_loadbalancer_url service_name namespace Sample.ready)
  = Returned (Some "10.0.0.7").
Proof.
  apply (get_loadbalancer_url_prefers_ip service_name namespace Sample.ready
           (Sample.service_of (Some [Sample.both; Sample.only_hostname]))
           (cluster Sample.ready)
           {| K8s.load_balancer :=
                Some {| K8s.ingress := Some [Sample.both; Sample.only_hostname] |} |}
           {| K8s.ingress := Some [Sample.both; Sample.only_hostname] |}
           Sample.both [Sample.only_hostname] "10.0.0.7" "manager.example").
  - left. reflexivity.
  - vm_compute. reflexivity.
  - reflexivity.
  - reflexivity.
  - reflexivity.
  - reflexivity.
  - discriminate.
  - reflexivity.
  - discriminate.
Defined.

Lemma configure_pod_manager_url_unready_witness :
  result (configure_pod_manager_url namespace Sample.unready) = Returned tt
  ∧ env_file (final (configure_pod_manager_url namespace Sample.unready))
    = Some Sample.env_text.
Proof.
  destruct (configure_pod_manager_url_unready namespace Sample.unready
              (Sample.service_of None) (cluster Sample.unready)
              {| K8s.load_balancer := Some {| K8s.ingress := None |} |}
              {| K8s.ingress := None |})
    as (_ & Hr & Hf & _).
  - left. reflexivity.
  - vm_compute. reflexivity.
  - reflexivity.
  - reflexivity.
  - left. reflexivity.
  - split; [exact Hr | exact Hf].
Defined.

(** C2, as stated, fails: against a manager service with no ingress
    address the provisioner's resolve step returns normally, as it does
    when the address is resolved; it raises nothing and hands back no
    error. *)
Lemma configure_pod_manager_url_unready_counterexample :
  result (get_loadbalancer_url service_name namespace Sample.unready)
  = Returned None
  ∧ result (configure_pod_manager_url namespace Sample.unready) = Returned tt
  ∧ result (configure_pod_manager_url namespace Sample.ready) = Returned tt
  ∧ ¬ ∃ e, result (configure_pod_manager_url namespace Sample.unready)
           = Raised e.
Proof.
  split_and!; [by vm_compute | by vm_compute | by vm_compute |].
  intros [e He]. vm_compute in He. discriminate He.
Qed.

Lemma configure_pod_manager_url_no_write_witness :
  env_file (final (configure_pod_manager_url namespace Sample.refused))
  = Some Sample.env_text
  ∧ file_events (events (configure_pod_manager_url namespace Sample.refused))
    = [].
Proof.
  apply (configure_pod_manager_url_no_write namespace Sample.refused).
  vm_compute. reflexivity.
Defined.


End ResolutionWitnesses.

(* ===================================================================== *)
(** ** Cluster bootstrap *)
(* ===================================================================== *)

Section FailFast.
Context {St : Type} `{!K8s.ControlPlane St}.
Import SpliceOrcPlugin.
Implicit Types (w : World St).

Lemma api_calls_app t1 t2 : api_calls (t1 ++ t2) = api_calls t1 ++ api_calls t2.
Proof. unfold api_calls. apply omap_app. Qed.

Lemma fail_fast_quiet {A} (m : M St A) w :
  api_calls (events (m w)) = [] → fail_fast (m w).
Proof. intros Hq c e Hin. rewrite Hq in Hin. by apply elem_of_nil in Hin. Qed.

Lemma fail_fast_bind {A B} (m : M St A) (k : A → M St B) w :
  fail_fast (m w) → (∀ a w1, fail_fast (k a w1)) → fail_fast (Eff.bind m k w).
Proof.
  intros Hm Hk c e. unfold Eff.bind.
  destruct (m w) as [[[a | e1] w1] t1] eqn:Em.
  2: { intros Hin Hne. destruct (Hm c e Hin Hne) as [[= ->] Hl]. by split. }
  specialize (Hk a w1). destruct (k a w1) as [[r2 w2] t2] eqn:Ek.
  unfold fail_fast, result, events in *. cbn [fst snd] in *.
  rewrite api_calls_app. intros [Hin | Hin]%elem_of_app Hne.
  - by destruct (Hm c e Hin Hne).
  - destruct (Hk c e Hin Hne) as [-> Hlast]. split; [done |].
    destruct (api_calls t2) as [|x l] eqn:E2; [done |].
    rewrite <- Hlast. apply last_app_cons.
Qed.

Lemma fail_fast_call c w : fail_fast (call c w).
Proof.
  intros c' e. unfold call. unfold_run.
  destruct (K8s.respond c (cluster w)) as [[a | e1] s]; cbn.
  - intros [[=] | []%elem_of_nil]%elem_of_cons.
  - intros [[= -> ->] | []%elem_of_nil]%elem_of_cons _. by split.
Qed.

Lemma fail_fast_log {A} lvl msg (k : M St A) w :
  (∀ w1, fail_fast (k w1)) →
  fail_fast (Eff.bind (emit (EvLog lvl msg)) (λ _, k) w).
Proof. intros Hk. apply fail_fast_bind; [by apply fail_fast_quiet | done]. Qed.

(** The read-or-create step of the three namespaced objects. *)
Lemma fail_fast_read_or_create c found (create : M St unit) err w :
  K8s.is_read c = true →
  (∀ w1, fail_fast (create w1)) →
  fail_fast
    (try_except (call c ;;; logging_info found)
       (λ e, match e with
             | ApiException status =>
                 if (status =? 404)%Z then create
                 else (logging_error [Text err; Exc e] ;;; raise e)
             | _ => raise e
             end) w).
Proof.
  intros Hread Hcreate c' e. unfold call. unfold_run.
  destruct (K8s.respond c (cluster w)) as [[a | e1] s]; cbn.
  { intros [[=] | []%elem_of_nil]%elem_of_cons. }
  assert (∀ (r : outcome unit) w2,
             (c', Some e) ∈ api_calls [EvApi c (Some e1)] ++ api_calls [] →
             (K8s.is_read c' = true → e ≠ ApiException 404) →
             e1 ≠ ApiException 404 →
             Raised e1 = Raised (A:=unit) e
             ∧ last (api_calls [EvApi c (Some e1)]) = Some (c', Some e))
    as Hstop.
  { intros _ _ [[= -> ->] | []%elem_of_nil]%elem_of_cons _ _. by split. }
  destruct e1 as [status| | | | |];
    try (intros Hin Hne; apply (Hstop (Raised e) w); [done | done | done]).
  destruct (Z.eqb_spec status 404) as [-> | Hstatus].
  - specialize (Hcreate (set_cluster w s)).
    destruct (create (set_cluster w s)) as [[r2 w2] t2] eqn:Ec.
    unfold fail_fast, result, events in Hcreate. cbn [fst snd] in *.
    change (EvApi c (Some (ApiException 404)) :: t2)
      with ([EvApi c (Some (ApiException 404))] ++ t2).
    rewrite api_calls_app. cbn [api_calls omap].
    intros [[= -> ->] | Hin]%elem_of_cons Hne; [by destruct (Hne Hread) |].
    destruct (Hcreate c' e Hin Hne) as [-> Hlast]. split; [done |].
    destruct (api_calls t2) as [|x l] eqn:E2; [done |].
    rewrite <- Hlast. by cbn.
  - cbn. intros Hin Hne.
    apply (Hstop (Raised e) w); [done | done | congruence].
Qed.

End FailFast.

Section BootstrapFailFast.
Context {St : Type} `{!K8s.ControlPlane St}.
Import SpliceOrcPlugin.
Implicit Types (w : World St).

Lemma fail_fast_create_then_log c msg w :
  fail_fast ((call c ;;; logging_info msg) w).
Proof.
  apply fail_fast_bind; [apply fail_fast_call |].
  intros a w1. by apply fail_fast_quiet.
Qed.

Lemma load_config_quiet w : api_calls (events (load_config w)) = [].
Proof. unfold load_config. unfold_run. by repeat run_step. Qed.

Lemma create_role_and_binding_fail_fast ns sa w :
  fail_fast (create_role_and_binding ns sa w).
Proof.
  unfold create_role_and_binding. apply fail_fast_bind.
  - apply fail_fast_read_or_create; [done |].
    intros w1. apply fail_fast_create_then_log.
  - intros _ w1. apply fail_fast_read_or_create; [done |].
    intros w2. apply fail_fast_create_then_log.
Qed.

Lemma create_service_account_fail_fast ns w :
  fail_fast (create_service_account ns w).
Proof.
  unfold create_service_account. apply fail_fast_bind.
  - apply fail_fast_read_or_create; [done |].
    intros w1. apply fail_fast_create_then_log.
  - intros _ w1. apply create_role_and_binding_fail_fast.
Qed.

Lemma create_namespace_fail_fast name w :
  fail_fast (create_namespace name w).
Proof.
  unfold create_namespace. apply fail_fast_log. intros w1.
  apply fail_fast_bind; [apply fail_fast_quiet, load_config_quiet |].
  intros _ w2. apply fail_fast_bind; [apply fail_fast_call |].
  intros namespaces w3. destruct (existsb _ namespaces).
  - by apply fail_fast_quiet.
  - apply fail_fast_create_then_log.
Qed.

Lemma bootstrap_fail_fast w : fail_fast (bootstrap w).
Proof.
  unfold bootstrap. apply fail_fast_log. intros w1.
  apply fail_fast_bind; [apply create_namespace_fail_fast |].
  intros _ w2. apply create_service_account_fail_fast.
Qed.

(** C8.  During bootstrap a control-plane failure that is neither a
    not-found nor an already-exists answer is propagated at once: the
    bootstrap raises that very exception and makes no further call. *)
Theorem bootstrap_propagates_failure w c e :
  (c, Some e) ∈ api_calls (events (bootstrap w)) →
  e ≠ ApiException 404 → e ≠ ApiException 409 →
  result (bootstrap w) = Raised e
  ∧ last (api_calls (events (bootstrap w))) = Some (c, Some e).
Proof.
  intros Hin H404 _. by apply (bootstrap_fail_fast w c e).
Qed.

End BootstrapFailFast.

Section BootstrapWitness.
Import SpliceOrcPlugin.

Lemma bootstrap_propagates_failure_witness :
  result (bootstrap Sample.outage) = Raised (ApiException 500)
  ∧ last (api_calls (events (bootstrap Sample.outage)))
    = Some (K8s.read_namespaced_role role_name namespace,
            Some (ApiException 500)).
Proof.
  apply (bootstrap_propagates_failure Sample.outage).
  - vm_compute. repeat constructor.
  - discriminate.
  - discriminate.
Defined.

End BootstrapWitness.


Section ReferenceBootstrap.
Import SpliceOrcPlugin.
Implicit Types (w : World Cluster.state).

Lemma existsb_elements (S : gset string) n :
  existsb (λ ns, String.eqb ns n) (elements S) = bool_decide (n ∈ S).
Proof.
  destruct (existsb _ _) eqn:E.
  - apply existsb_exists in E as (x & Hx & ->%String.eqb_eq).
    symmetry. apply bool_decide_eq_true_2.
    apply elem_of_elements, list_elem_of_In, Hx.
  - symmetry. apply bool_decide_eq_false_2. intros Hin.
    apply not_true_iff_false in E. apply E, existsb_exists. exists n.
    split; [by apply list_elem_of_In, elem_of_elements | apply String.eqb_refl].
Qed.

Lemma create_namespace_reference n w :
  config_loadable w → fault_free w →
  ∃ s' t, create_namespace n w = (Returned tt, set_cluster w s', t)
          ∧ grows (cluster w) s' ∧ n ∈ Cluster.namespaces s'.
Proof.
  intros Hc Hff. unfold fault_free in Hff.
  destruct (load_config_run w Hc) as (t0 & Hl & _).
  unfold create_namespace. unfold Eff.bind at 1.
  unfold logging_info at 1, emit at 1.
  unfold Eff.bind at 1. rewrite Hl.
  unfold_run. unfold K8s.respond, Cluster.control_plane.
  rewrite Hff. cbn [Cluster.answer]. rewrite existsb_elements.
  case_bool_decide; cbn.
  - eexists _, _; (split; [reflexivity |]); unfold grows; cbn. done.
  - rewrite Hff. cbn. rewrite decide_False by done. cbn.
    eexists _, _; (split; [reflexivity |]); unfold grows; cbn.
    split_and!; try done; set_solver.
Qed.

Lemma create_service_account_reference ns w :
  fault_free w → ns ∈ Cluster.namespaces (cluster w) →
  ∃ s' t, create_service_account ns w = (Returned tt, set_cluster w s', t)
          ∧ grows (cluster w) s'
          ∧ (ns, service_account_name) ∈ Cluster.service_accounts s'
          ∧ is_Some (Cluster.roles s' !! (ns, role_name))
          ∧ is_Some (Cluster.role_bindings s' !! (ns, role_binding_name)).
Proof.
  intros Hff Hns. unfold fault_free in Hff.
  unfold create_service_account, create_role_and_binding. unfold_run.
  unfold K8s.respond, Cluster.control_plane.
  repeat ref_step Hff; try done.
  all: eexists _, _; (split; [reflexivity |]); unfold grows; cbn.
  all: split_and!; try done; try set_solver; try (by rewrite lookup_insert_eq).
Qed.

(** From any state the bootstrap goes through and leaves its four
    objects. *)
Lemma bootstrap_reference w :
  config_loadable w → fault_free w →
  ∃ s' t, bootstrap w = (Returned tt, set_cluster w s', t)
          ∧ Cluster.bootstrapped s'
          ∧ Cluster.fault s' = Cluster.fault (cluster w).
Proof.
  intros Hc Hff.
  destruct (create_namespace_reference namespace w Hc Hff)
    as (s1 & t1 & Hrun1 & [Hsub1 Hf1] & Hns).
  destruct (create_service_account_reference namespace (set_cluster w s1))
    as (s2 & t2 & Hrun2 & [Hsub2 Hf2] & Hsa & Hrole & Hrb).
  { intros c. cbn. by rewrite Hf1. }
  { done. }
  unfold bootstrap, Eff.bind, logging_info, emit. cbn beta iota.
  rewrite Hrun1. cbn beta iota. rewrite Hrun2. cbn in *.
  eexists _, _. split; [reflexivity |]. split.
  - unfold Cluster.bootstrapped. split_and!; try done. set_solver.
  - congruence.
Qed.

(** On a bootstrapped cluster the bootstrap only lists and reads. *)
Lemma bootstrap_again w :
  config_loadable w → fault_free w → Cluster.bootstrapped (cluster w) →
  ∃ t, bootstrap w = (Returned tt, w, t)
       ∧ api_calls t
         = [(K8s.list_namespace, None);
            (K8s.read_namespaced_service_account service_account_name namespace,
             None);
            (K8s.read_namespaced_role role_name namespace, None);
            (K8s.read_namespaced_role_binding role_binding_name namespace,
             None)].
Proof.
  intros Hc Hff (Hns & Hsa & [r Hrole] & [b Hrb]). unfold fault_free in Hff.
  destruct (load_config_run w Hc) as (t0 & Hl & Ht0 & _).
  unfold bootstrap, create_namespace.
  unfold Eff.bind at 1. unfold logging_info at 1, emit at 1.
  unfold Eff.bind at 1. unfold Eff.bind at 1.
  unfold logging_info at 1, emit at 1.
  unfold Eff.bind at 1. rewrite Hl.
  unfold create_service_account, create_role_and_binding.
  unfold_run. unfold K8s.respond, Cluster.control_plane.
  rewrite Hff. cbn [Cluster.answer]. rewrite existsb_elements.
  rewrite bool_decide_eq_true_2 by done.
  repeat ref_step Hff; try done.
  rewrite !set_cluster_id. eexists. split; [reflexivity |].
  rewrite !api_calls_app. unfold api_calls in *. rewrite Ht0. done.
Qed.

(** C3.  Bootstrap is idempotent: from any cluster state (with a
    loadable client configuration and a control plane that answers) the
    first run succeeds and leaves the namespace, service account, role
    and role binding; a second run right after succeeds too, finds the
    same four objects by reading and changes nothing. *)
Theorem bootstrap_idempotent w :
  config_loadable w → fault_free w →
  let first := bootstrap w in
  let second := bootstrap (final first) in
  result first = Returned tt
  ∧ Cluster.bootstrapped (cluster (final first))
  ∧ result second = Returned tt
  ∧ final second = final first
  ∧ api_calls (events second)
    = [(K8s.list_namespace, None);
       (K8s.read_namespaced_service_account service_account_name namespace,
        None);
       (K8s.read_namespaced_role role_name namespace, None);
       (K8s.read_namespaced_role_binding role_binding_name namespace, None)].
Proof.
  intros Hc Hff first second.
  destruct (bootstrap_reference w Hc Hff) as (s1 & t1 & Hrun1 & Hboot & Hf).
  assert (final first = set_cluster w s1) as Hfinal
    by (subst first; by rewrite Hrun1).
  destruct (bootstrap_again (set_cluster w s1)) as (t2 & Hrun2 & Hcalls).
  { exact Hc. }
  { intros c. cbn. by rewrite Hf. }
  { exact Hboot. }
  subst second. rewrite Hfinal, Hrun2. subst first. rewrite Hrun1.
  unfold result, final, events. cbn [fst snd]. by split_and!.
Qed.

Lemma bootstrap_idempotent_witness :
  result (bootstrap Sample.fresh) = Returned tt
  ∧ Cluster.bootstrapped (cluster (final (bootstrap Sample.fresh)))
  ∧ result (bootstrap (final (bootstrap Sample.fresh))) = Returned tt
  ∧ final (bootstrap (final (bootstrap Sample.fresh)))
    = final (bootstrap Sample.fresh)
  ∧ api_calls (events (bootstrap (final (bootstrap Sample.fresh))))
    = [(K8s.list_namespace, None);
       (K8s.read_namespaced_service_account service_account_name namespace,
        None);
       (K8s.read_namespaced_role role_name namespace, None);
       (K8s.read_namespaced_role_binding role_binding_name namespace, None)].
Proof.
  apply (bootstrap_idempotent Sample.fresh).
  - left. reflexivity.
  - intros c. reflexivity.
Defined.

End ReferenceBootstrap.

(* ===================================================================== *)
(** ** Import routing *)
(* ===================================================================== *)

Section Routing.
Context {St Obj Proxy : Type}.
Variable get_module_proxy :
  option string → string → gmap string cfg_value → St → outcome Proxy * St.
Variable python_run_import : ImportPathSpec → outcome (ImportReturn Obj).
Variable jac_run_import :
  ImportPathSpec → option bool → outcome (ImportReturn Obj).
Import SpliceOrcPlugin.
Implicit Types (w : World St).

Abbreviation jac_import :=
  (jac_import (St:=St) get_module_proxy python_run_import jac_run_import).
Abbreviation local_import :=
  (local_import (St:=St) (Proxy:=Proxy) python_run_import jac_run_import).

Abbreviation imported := (imported python_run_import jac_run_import).
Abbreviation shape := (shape (Obj:=Obj) (Proxy:=Proxy)).

Lemma local_import_run target base_path absorb cachable mdl_alias
    override_name lng items reload_module w :
  let spec := spec_of target base_path absorb cachable mdl_alias
                override_name lng items in
  local_import target base_path absorb cachable mdl_alias override_name
    lng items reload_module w
  = (outcome_map (shape absorb items) (imported lng spec reload_module),
     (if jac_program w then w else set_jac_program w true),
     (if jac_program w then [] else [EvAttachProgram])
     ++ [import_event lng spec reload_module]).
Proof.
  intros spec. unfold SpliceOrcPlugin.local_import, call_run_import,
    attach_program, imported, import_event, shape. unfold_run.
  subst spec. unfold spec_of.
  destruct (jac_program w); cbn; case_bool_decide; cbn.
  - by destruct (python_run_import _).
  - by destruct (jac_run_import _ reload_module).
  - by destruct (python_run_import _).
  - by destruct (jac_run_import _ reload_module).
Qed.

Lemma jac_import_not_remote target base_path absorb cachable mdl_alias
    override_name lng items reload_module w :
  not_remote w target →
  jac_import target base_path absorb cachable mdl_alias override_name
    lng items reload_module w
  = local_import target base_path absorb cachable mdl_alias override_name
      lng items reload_module w.
Proof.
  intros Hnr. unfold SpliceOrcPlugin.jac_import. unfold_run.
  destruct Hnr as [-> | (config & load_type & -> & -> & ->)]; cbn beta iota;
    by destruct (local_import target base_path absorb cachable mdl_alias
                   override_name lng items reload_module w) as [[r w1] t1].
Qed.

Lemma jac_import_remote_run target base_path absorb cachable mdl_alias
    override_name lng items reload_module w config :
  remote_mode w target config →
  let url := environ w !! POD_MANAGER_URL in
  let answer := get_module_proxy url target config (cluster w) in
  jac_import target base_path absorb cachable mdl_alias override_name
    lng items reload_module w
  = (outcome_map (λ p, [Remote p]) answer.1, set_cluster w answer.2,
     [EvGetenv POD_MANAGER_URL; EvModuleProxy url target config]
     ++ match answer.1 with
        | Returned _ => [EvLog INFO [Text "Loading remote module "; Repr]]
        | Raised _ => []
        end).
Proof.
  intros [Hcfg Hlt] url answer.
  unfold SpliceOrcPlugin.jac_import, call_module_proxy.
  unfold_run. rewrite Hcfg, Hlt. cbn. subst answer url. unfold POD_MANAGER_URL.
  by destruct (get_module_proxy _ target config (cluster w)) as [[p | e] s].
Qed.

Lemma local_mode_not_remote w target : local_mode w target → not_remote w target.
Proof.
  intros [H | (config & Hc & Hl)]; [by left |].
  right. by exists config, (CfgStr "local").
Qed.

(** C5.  When the target has no module configuration or its load mode is
    local, the hook delegates to the local importer of the request's
    language with the request unchanged and returns what it returns, and
    it neither reads the endpoint nor asks for a proxy; when the load
    mode is remote, it never runs a local importer. *)
Theorem jac_import_routing target base_path absorb cachable mdl_alias
    override_name lng items reload_module w :
  let run := jac_import target base_path absorb cachable mdl_alias
               override_name lng items reload_module w in
  let spec := spec_of target base_path absorb cachable mdl_alias
                override_name lng items in
  (local_mode w target →
     List.filter is_import_event (events run)
     = [import_event lng spec reload_module]
     ∧ List.filter is_endpoint_event (events run) = []
     ∧ result run
       = outcome_map (shape absorb items) (imported lng spec reload_module)
     ∧ environ (final run) = environ w)
  ∧ (∀ config, remote_mode w target config →
       List.filter is_import_event (events run) = []).
Proof.
  intros run spec. split.
  - intros Hlocal%local_mode_not_remote. subst run.
    rewrite jac_import_not_remote, local_import_run by done.
    fold spec. unfold result, final, events. cbn [fst snd].
    rewrite !List.filter_app. unfold import_event.
    destruct (jac_program w); case_bool_decide; by cbn.
  - intros config Hremote. subst run.
    rewrite (jac_import_remote_run _ _ _ _ _ _ _ _ _ _ _ Hremote).
    unfold events. cbn [snd].
    by destruct (get_module_proxy _ _ _ _) as [[p | e] s].
Qed.




End Routing.

Section RoutingWitnesses.
Import SpliceOrcPlugin.



Lemma jac_import_routing_witness :
  result (Sample.import_ "os" false None Sample.fresh)
  = Returned [Local (Reference.Module_ "os")]
  ∧ List.filter is_endpoint_event
      (events (Sample.import_ "os" false None Sample.fresh)) = []
  ∧ List.filter is_import_event
      (events (Sample.import_ "numpy" false None Sample.routed_known)) = [].
Proof.
  split_and!.
  - refine (eq_trans
              (proj1 (proj2 (proj2
                 (proj1 (jac_import_routing Reference.get_module_proxy
                           Reference.run_import Sample.jac_run_import
                           "os" "/app" false true None None (Some "py")
                           None None Sample.fresh) _)))) _).
    + left. vm_compute. reflexivity.
    + vm_compute. reflexivity.
  - refine (proj1 (proj2
              (proj1 (jac_import_routing Reference.get_module_proxy
                        Reference.run_import Sample.jac_run_import
                        "os" "/app" false true None None (Some "py")
                        None None Sample.fresh) _))).
    left. vm_compute. reflexivity.
  - refine (proj2 (jac_import_routing Reference.get_module_proxy
                     Reference.run_import Sample.jac_run_import
                     "numpy" "/app" false true None None (Some "py")
                     None None Sample.routed_known)
              Sample.remote_config _).
    split; vm_compute; reflexivity.
Defined.





End RoutingWitnesses.

(* ===================================================================== *)
(** ** Worked runs *)
(* ===================================================================== *)

Example strip_ex : strip ("  A=1" +:+ String LF "") = "A=1".
Proof. reflexivity. Qed.

Example readlines_ex :
  readlines ("a" +:+ String LF ("b" +:+ String LF (String LF "c")))
  = [String "a" (String LF ""); String "b" (String LF ""); String LF ""; "c"].
Proof. reflexivity. Qed.

Example universal_newlines_ex :
  universal_newlines ("a" +:+ String CR (String LF ("b" +:+ String CR "c")))
  = "a" +:+ String LF ("b" +:+ String LF "c").
Proof. reflexivity. Qed.

Example split_ex : split_eq_1 "K=v=w" = Some ("K", "v=w").
Proof. reflexivity. Qed.

Example strip_dquote_ex :
  strip_dquote (String dquote (String dquote ("abc" +:+ String dquote ""))) = "abc".
Proof. reflexivity. Qed.

(** The file written for the sample store. *)
Example written_ex :
  env_file (final (SpliceOrcPlugin.configure_pod_manager_url
                     SpliceOrcPlugin.namespace Sample.ready))
  = Some (SpliceOrcPlugin.write_env_vars
            [("DEBUG", "1"); ("REGION ", " eu");
             ("POD_MANAGER_URL", "http://10.0.0.7:8000")]).
Proof. vm_compute. reflexivity. Qed.

(** A comment line in [.env] stops the persistence with [ValueError]; the
    file stays as it was. *)
Example comment_line_ex :
  result (SpliceOrcPlugin.configure_pod_manager_url
            SpliceOrcPlugin.namespace Sample.commented)
  = Raised ValueError
  ∧ env_file (final (SpliceOrcPlugin.configure_pod_manager_url
                       SpliceOrcPlugin.namespace Sample.commented))
    = Some Sample.env_comment.
Proof. vm_compute. split; reflexivity. Qed.

(** A configuration entry without [load_type] fails the lookup. *)
Example missing_load_type_ex :
  result (Sample.import_ "numpy" false None
            {| cluster := Cluster.empty; kube_config := true;
               incluster_config := false; env_file := None; environ := ∅;
               module_config := {["numpy" := ∅]}; jac_program := false |})
  = Raised (KeyError "load_type").
Proof. vm_compute. reflexivity. Qed.
(* ===================================================================== *)
(** ** More on the store *)
(* ===================================================================== *)

Section StoreExtras.
Local Arguments String.append : simpl nomatch.
Import SpliceOrcPlugin.

Lemma split_eq_1_None s :
  split_eq_1 s = None ↔ all_chars not_equals s = true.
Proof.
  induction s as [|c s IH]; simpl; [done |].
  unfold not_equals at 1. destruct (Ascii.eqb c equals); simpl.
  - split; discriminate.
  - rewrite <- IH. destruct (split_eq_1 s) as [[k v]|]; split; done.
Qed.

Lemma read_env_vars_app l1 l2 acc :
  read_env_vars (l1 ++ l2) acc
  = match read_env_vars l1 acc with
    | Returned d => read_env_vars l2 d
    | Raised e => Raised e
    end.
Proof.
  revert acc. induction l1 as [|line l1 IH]; intros acc; simpl; [done |].
  destruct (truthy_str (strip line)); [| apply IH].
  destruct (split_eq_1 (strip line)) as [[k v]|]; [apply IH | done].
Qed.

Lemma read_env_vars_malformed lines acc :
  existsb malformed lines = true → read_env_vars lines acc = Raised ValueError.
Proof.
  revert acc. induction lines as [|line lines IH]; intros acc; simpl; [done |].
  unfold malformed at 1.
  destruct (truthy_str (strip line)) eqn:Et; simpl; [| apply IH].
  destruct (split_eq_1 (strip line)) as [[k v]|] eqn:Es.
  - assert (all_chars not_equals (strip line) = false) as ->.
    { apply not_true_iff_false. rewrite <- split_eq_1_None. congruence. }
    apply IH.
  - done.
Qed.

Lemma read_env_vars_well_formed lines acc :
  existsb malformed lines = false →
  read_env_vars lines acc = Returned (foldl assign_line acc lines).
Proof.
  revert acc. induction lines as [|line lines IH]; intros acc; simpl; [done |].
  intros [Hm Hrest]%orb_false_iff. unfold malformed in Hm. unfold assign_line at 2.
  destruct (truthy_str (strip line)) eqn:Et; simpl in Hm.
  - destruct (split_eq_1 (strip line)) as [[k v]|] eqn:Es; [by apply IH |].
    apply split_eq_1_None in Es. congruence.
  - destruct (strip line) as [|c r]; [| done]. simpl. by apply IH.
Qed.

(** X1.  Reading [.env] fails exactly when some line is neither blank nor
    holds an equals sign, and then with [ValueError]; otherwise it gives
    the lines' assignments, applied in order. *)
Theorem stored_fails_on_malformed_line {St} (w : World St) content :
  env_file w = Some content →
  let lines := readlines (universal_newlines content) in
  (existsb malformed lines = true → stored w = Raised ValueError)
  ∧ (existsb malformed lines = false →
     stored w = Returned (foldl assign_line [] lines)).
Proof.
  intros Hf lines. rewrite (stored_Some _ _ Hf). fold lines. split.
  - apply read_env_vars_malformed.
  - apply read_env_vars_well_formed.
Qed.

Lemma assign_line_other d line k :
  key_of line ≠ Some k → dict_get (assign_line d line) k = dict_get d k.
Proof.
  unfold key_of, assign_line.
  destruct (split_eq_1 (strip line)) as [[k' v]|]; [| done].
  intros Hne. apply dict_get_set_ne. congruence.
Qed.

Lemma foldl_assign_line_other lines d k :
  Forall (λ line, key_of line ≠ Some k) lines →
  dict_get (foldl assign_line d lines) k = dict_get d k.
Proof.
  intros Hl. revert d. induction Hl as [|line lines Hk Hl IH]; intros d; [done |].
  simpl. rewrite IH. by apply assign_line_other.
Qed.

Lemma split_eq_1_truthy s k v : split_eq_1 s = Some (k, v) → truthy_str s = true.
Proof. by destruct s. Qed.

(** X2.  When a key is assigned on several lines the last assignment is
    the one read: the value of a line that assigns [k] is what the store
    gives for [k] unless a later line assigns [k] again. *)
Theorem read_env_vars_last_wins before line after acc k v d :
  split_eq_1 (strip line) = Some (k, v) →
  Forall (λ l, key_of l ≠ Some k) after →
  read_env_vars (before ++ line :: after) acc = Returned d →
  dict_get d k = Some (strip_dquote v).
Proof.
  intros Hline Hafter. rewrite read_env_vars_app.
  destruct (read_env_vars before acc) as [d1|e]; [| done].
  cbn [read_env_vars]. rewrite (split_eq_1_truthy _ _ _ Hline), Hline.
  destruct (existsb malformed after) eqn:Em.
  - by rewrite read_env_vars_malformed.
  - rewrite read_env_vars_well_formed by done. intros [= <-].
    rewrite foldl_assign_line_other by done. apply dict_get_set_eq.
Qed.

(** X3.  What the plugin has read from any text, written out and read
    again, is the same dictionary: the rewrite loses nothing the reader
    sees. *)
Theorem write_then_read_is_identity content d :
  read_text content = Returned d →
  read_text (write_env_vars d) = Returned d.
Proof.
  unfold read_text. intros [Hclean Hnd]%read_any_clean.
  by apply read_back_written.
Qed.

End StoreExtras.

Section StoreExtrasWitnesses.
Import SpliceOrcPlugin.

Lemma stored_fails_on_malformed_line_witness :
  stored Sample.commented = Raised ValueError
  ∧ stored Sample.ready = Returned [("DEBUG", "1"); ("REGION ", " eu")].
Proof.
  split.
  - refine (proj1 (stored_fails_on_malformed_line Sample.commented
                     Sample.env_comment eq_refl) _).
    vm_compute. reflexivity.
  - refine (eq_trans (proj2 (stored_fails_on_malformed_line Sample.ready
                               Sample.env_text eq_refl) _) _).
    + vm_compute. reflexivity.
    + vm_compute. reflexivity.
Defined.

Lemma read_env_vars_last_wins_witness :
  dict_get [("A", "3"); ("B", "2")] "A" = Some "3".
Proof.
  apply (read_env_vars_last_wins
           [String "A" (String "=" (String "1" (String LF "")));
            String "B" (String "=" (String "2" (String LF "")))]
           (String "A" (String "=" (String "3" (String LF ""))))
           [] [] "A" "3" [("A", "3"); ("B", "2")]).
  - vm_compute. reflexivity.
  - constructor.
  - vm_compute. reflexivity.
Defined.

Lemma write_then_read_is_identity_witness :
  read_text (write_env_vars [("A", "3"); ("B", "2")])
  = Returned [("A", "3"); ("B", "2")].
Proof.
  apply (write_then_read_is_identity Sample2.env_twice).
  vm_compute. reflexivity.
Defined.

End StoreExtrasWitnesses.

(* ===================================================================== *)
(** ** More on endpoint resolution *)
(* ===================================================================== *)

Section ResolutionExtras.
Context {St : Type} `{!K8s.ControlPlane St}.
Import SpliceOrcPlugin.
Implicit Types (w : World St) (s : St).

Lemma dict_set_twice {V} (d : dict V) k v :
  dict_set (dict_set d k v) k v = dict_set d k v.
Proof.
  induction d as [|[k0 v0] d IH]; simpl.
  - by rewrite String.eqb_refl.
  - destruct (String.eqb_spec k0 k) as [-> | Hne]; simpl.
    + by rewrite String.eqb_refl.
    + destruct (String.eqb_spec k0 k); [done |]. by rewrite IH.
Qed.

Lemma configure_frame ns w :
  ∃ s f, final (configure_pod_manager_url ns w)
         = set_env_file (set_cluster w s) f.
Proof.
  destruct (get_loadbalancer_url_frame service_name ns w) as [s Hs].
  unfold configure_pod_manager_url, Eff.bind.
  destruct (get_loadbalancer_url service_name ns w) as [[[url|e] w1] t1].
  - unfold final in Hs. cbn [fst snd] in Hs. subst w1.
    destruct (truthy_opt_str url).
    + rewrite existing_env_vars_run.
      destruct (stored (set_cluster w s)) as [d|e]; cbn.
      * by eexists s, _.
      * exists s, (env_file w). by destruct w.
    + cbn. exists s, (env_file w). by destruct w.
  - unfold final in Hs. cbn [fst snd] in Hs. subst w1.
    exists s, (env_file w). by destruct w.
Qed.

(** X7.  [get_loadbalancer_url] makes one control-plane call, the read of
    the named service in the named namespace, once the client
    configuration loads, and none otherwise; it never opens [.env]. *)
Theorem get_loadbalancer_url_single_read name ns w :
  (config_loadable w →
   ∃ failure, api_calls (events (get_loadbalancer_url name ns w))
              = [(K8s.read_namespaced_service name ns, failure)])
  ∧ (¬ config_loadable w →
     api_calls (events (get_loadbalancer_url name ns w)) = [])
  ∧ file_events (events (get_loadbalancer_url name ns w)) = []
  ∧ env_file (final (get_loadbalancer_url name ns w)) = env_file w.
Proof.
  split_and!.
  - intros Hc. destruct (load_config_run w Hc) as (t0 & Hl & Ht0 & _).
    unfold get_loadbalancer_url, service_ingress.
    unfold Eff.bind at 1. rewrite Hl. unfold_run.
    destruct (K8s.respond _ (cluster w)) as [[service | e] s];
      [exists None | exists (Some e)]; simpl;
      repeat run_step; cbn [snd]; rewrite api_calls_app, Ht0; done.
  - intros Hc.
    unfold get_loadbalancer_url, load_config, service_ingress. unfold_run.
    destruct (kube_config w) eqn:E1; [destruct Hc; by left |].
    destruct (incluster_config w) eqn:E2; [destruct Hc; by right |]. done.
  - apply get_loadbalancer_url_no_file.
  - destruct (get_loadbalancer_url_frame name ns w) as [s ->]. done.
Qed.

(** X8.  A service read without [status], or without [load_balancer] in
    its status, makes [get_loadbalancer_url] raise [AttributeError]: the
    handler is for [ApiException] only. *)
Theorem get_loadbalancer_url_attribute_error name ns w service s :
  config_loadable w →
  K8s.respond (K8s.read_namespaced_service name ns) (cluster w)
  = (K8s.ApiOk service, s) →
  K8s.status service = None
  ∨ (∃ status, K8s.status service = Some status
               ∧ K8s.load_balancer status = None) →
  result (get_loadbalancer_url name ns w) = Raised AttributeError.
Proof.
  intros Hc Hr Hattr. destruct (load_config_run w Hc) as (t0 & Hl & _).
  unfold get_loadbalancer_url, service_ingress.
  unfold Eff.bind at 1. rewrite Hl. unfold_run. rewrite Hr. simpl.
  destruct Hattr as [-> | (status & -> & ->)]; done.
Qed.

Lemma get_loadbalancer_url_other_failure name ns w e s :
  config_loadable w →
  K8s.respond (K8s.read_namespaced_service name ns) (cluster w)
  = (K8s.ApiFail e, s) →
  (∀ status, e ≠ ApiException status) →
  result (get_loadbalancer_url name ns w) = Raised e.
Proof.
  intros Hc Hr Hne. destruct (load_config_run w Hc) as (t0 & Hl & _).
  unfold get_loadbalancer_url, service_ingress.
  unfold Eff.bind at 1. rewrite Hl. unfold_run. rewrite Hr. simpl.
  destruct e; try done. by destruct (Hne status).
Qed.

Lemma configure_raises ns w e :
  result (get_loadbalancer_url service_name ns w) = Raised e →
  result (configure_pod_manager_url ns w) = Raised e
  ∧ env_file (final (configure_pod_manager_url ns w)) = env_file w.
Proof.
  intros Hres.
  destruct (get_loadbalancer_url_frame service_name ns w) as [s Hs].
  unfold configure_pod_manager_url, Eff.bind.
  destruct (get_loadbalancer_url service_name ns w) as [[r w1] t1].
  unfold result, final in *. cbn [fst snd] in *. subst r w1. done.
Qed.

(** X9.  A failure of the service read that is not an [ApiException]
    (the cluster cannot be reached, say) is not turned into a missing
    address: [get_loadbalancer_url] raises it, and so does
    [configure_pod_manager_url], leaving [.env] as it was. *)
Theorem resolution_propagates_other_failures ns w e s :
  config_loadable w →
  K8s.respond (K8s.read_namespaced_service service_name ns) (cluster w)
  = (K8s.ApiFail e, s) →
  (∀ status, e ≠ ApiException status) →
  result (get_loadbalancer_url service_name ns w) = Raised e
  ∧ result (configure_pod_manager_url ns w) = Raised e
  ∧ env_file (final (configure_pod_manager_url ns w)) = env_file w.
Proof.
  intros Hc Hr Hne.
  pose proof (get_loadbalancer_url_other_failure _ _ _ _ _ Hc Hr Hne) as Hres.
  split; [done |]. by apply configure_raises.
Qed.

(** X10.  When neither the kube configuration nor the in-cluster one
    loads, the bootstrap and the endpoint configuration raise
    [ConfigException] before any control-plane call and change nothing. *)
Theorem unconfigured_client_stops_early ns w :
  kube_config w = false → incluster_config w = false →
  (result (bootstrap w) = Raised ConfigException
   ∧ api_calls (events (bootstrap w)) = []
   ∧ final (bootstrap w) = w)
  ∧ (result (configure_pod_manager_url ns w) = Raised ConfigException
     ∧ api_calls (events (configure_pod_manager_url ns w)) = []
     ∧ final (configure_pod_manager_url ns w) = w).
Proof.
  intros Hk Hi. split.
  - unfold bootstrap, create_namespace, load_config. unfold_run.
    by rewrite Hk, Hi.
  - unfold configure_pod_manager_url, get_loadbalancer_url, load_config.
    unfold_run. by rewrite Hk, Hi.
Qed.

(** X11.  An address that [get_loadbalancer_url] returns is never the
    empty string. *)
Theorem get_loadbalancer_url_nonempty name ns w addr :
  result (get_loadbalancer_url name ns w) = Returned (Some addr) →
  addr ≠ "".
Proof.
  intros Hres ->. by apply get_loadbalancer_url_truthy in Hres.
Qed.

(** X12.  An [ApiException] from the service read does not stop
    [configure_pod_manager_url]: it returns normally with two error
    messages logged and [.env] as it was. *)
Theorem configure_pod_manager_url_swallows_api_exception ns w status s :
  config_loadable w →
  K8s.respond (K8s.read_namespaced_service service_name ns) (cluster w)
  = (K8s.ApiFail (ApiException status), s) →
  result (configure_pod_manager_url ns w) = Returned tt
  ∧ env_file (final (configure_pod_manager_url ns w)) = env_file w
  ∧ List.filter is_error_log (events (configure_pod_manager_url ns w))
    = [EvLog ERROR [Text "Error retrieving LoadBalancer URL: ";
                    Exc (ApiException status)];
       EvLog ERROR [Text "Failed to retrieve the pod_manager_url."]].
Proof.
  intros Hc Hr. destruct (load_config_run w Hc) as (t0 & Hl & _ & _).
  assert (List.filter is_error_log t0 = []) as Ht0.
  { revert Hl. unfold load_config. unfold_run.
    destruct (kube_config w); [by intros [= <-] |].
    destruct (incluster_config w); [by intros [= <-] | done]. }
  assert (get_loadbalancer_url service_name ns w
          = (Returned None, set_cluster w s,
             t0 ++ [EvApi (K8s.read_namespaced_service service_name ns)
                      (Some (ApiException status));
                    EvLog ERROR [Text "Error retrieving LoadBalancer URL: ";
                                 Exc (ApiException status)]])) as Hrun.
  { unfold get_loadbalancer_url, service_ingress.
    unfold Eff.bind at 1. rewrite Hl. unfold_run. by rewrite Hr. }
  assert (result (get_loadbalancer_url service_name ns w) = Returned None)
    as Hres by by rewrite Hrun.
  rewrite (configure_unresolved _ _ Hres), Hrun.
  unfold result, final, events. cbn [fst snd]. split_and!; [done | done |].
  rewrite !List.filter_app, Ht0. done.
Qed.

(** X4.  Persisting the same address a second time writes the same file
    again: the first write already is in the form the second one
    produces. *)
Theorem configure_pod_manager_url_twice ns w addr old :
  result (get_loadbalancer_url service_name ns w) = Returned (Some addr) →
  result (get_loadbalancer_url service_name ns
            (final (configure_pod_manager_url ns w)))
  = Returned (Some addr) →
  one_line addr = true →
  stored w = Returned old →
  let once := final (configure_pod_manager_url ns w) in
  let twice := final (configure_pod_manager_url ns once) in
  result (configure_pod_manager_url ns once) = Returned tt
  ∧ env_file twice = env_file once.
Proof.
  intros Hres1 Hres2 Haddr Hold once twice.
  destruct (stored_clean _ _ Hold) as [Hclean Hnd].
  destruct (configure_resolved ns w addr old Hres1 Hold) as (_ & Hf1 & _).
  fold once in Hf1, Hres2.
  set (url := "http://" +:+ addr +:+ ":8000") in *.
  set (new := dict_set old POD_MANAGER_URL url) in *.
  assert (stored once = Returned new) as Hold2.
  { rewrite (stored_Some _ _ Hf1). apply read_back_written.
    - apply dict_set_Forall; [done | by apply clean_pod_manager_url |].
      intros k0 v0 (? & ? & ? & _) ->.
      destruct (clean_pod_manager_url addr Haddr) as (_ & _ & _ & ? & ? & ?).
      by split_and!.
    - by apply dict_set_NoDup. }
  destruct (configure_resolved ns once addr new Hres2 Hold2) as (Hr2 & Hf2 & _).
  split; [done |]. subst twice. rewrite Hf2, Hf1. f_equal. f_equal.
  fold url. subst new. apply dict_set_twice.
Qed.

End ResolutionExtras.

Section ResolutionExtrasWitnesses.
Import SpliceOrcPlugin.

Lemma get_loadbalancer_url_single_read_witness :
  (∃ failure, api_calls (events (get_loadbalancer_url service_name namespace
                                    Sample.refused))
              = [(K8s.read_namespaced_service service_name namespace, failure)])
  ∧ api_calls (events (get_loadbalancer_url service_name namespace
                         Sample2.unconfigured)) = [].
Proof.
  split.
  - apply (proj1 (get_loadbalancer_url_single_read service_name namespace
                    Sample.refused)).
    left. reflexivity.
  - apply (proj1 (proj2 (get_loadbalancer_url_single_read service_name
                           namespace Sample2.unconfigured))).
    intros [H | H]; discriminate H.
Defined.

Lemma get_loadbalancer_url_attribute_error_witness :
  result (get_loadbalancer_url service_name namespace Sample2.bare)
  = Raised AttributeError.
Proof.
  apply (get_loadbalancer_url_attribute_error service_name namespace
           Sample2.bare Sample2.bare_service (cluster Sample2.bare)).
  - left. reflexivity.
  - vm_compute. reflexivity.
  - left. reflexivity.
Defined.

Lemma resolution_propagates_other_failures_witness :
  result (get_loadbalancer_url service_name namespace Sample2.offline)
  = Raised (Foreign "MaxRetryError")
  ∧ result (configure_pod_manager_url namespace Sample2.offline)
    = Raised (Foreign "MaxRetryError")
  ∧ env_file (final (configure_pod_manager_url namespace Sample2.offline))
    = Some Sample.env_text.
Proof.
  apply (resolution_propagates_other_failures namespace Sample2.offline
           (Foreign "MaxRetryError") (cluster Sample2.offline)).
  - left. reflexivity.
  - vm_compute. reflexivity.
  - discriminate.
Defined.

Lemma unconfigured_client_stops_early_witness :
  result (bootstrap Sample2.unconfigured) = Raised ConfigException
  ∧ final (configure_pod_manager_url namespace Sample2.unconfigured)
    = Sample2.unconfigured.
Proof.
  destruct (unconfigured_client_stops_early namespace Sample2.unconfigured
              eq_refl eq_refl) as [(Hb & _) (_ & _ & Hc)].
  split; [exact Hb | exact Hc].
Defined.

Lemma get_loadbalancer_url_nonempty_witness : "10.0.0.7" ≠ "".
Proof.
  apply (get_loadbalancer_url_nonempty service_name namespace Sample.ready).
  vm_compute. reflexivity.
Defined.

Lemma configure_pod_manager_url_swallows_api_exception_witness :
  result (configure_pod_manager_url namespace Sample.refused) = Returned tt
  ∧ env_file (final (configure_pod_manager_url namespace Sample.refused))
    = Some Sample.env_text
  ∧ List.filter is_error_log
      (events (configure_pod_manager_url namespace Sample.refused))
    = [EvLog ERROR [Text "Error retrieving LoadBalancer URL: ";
                    Exc (ApiException 403)];
       EvLog ERROR [Text "Failed to retrieve the pod_manager_url."]].
Proof.
  apply (configure_pod_manager_url_swallows_api_exception namespace
           Sample.refused 403 (cluster Sample.refused)).
  - left. reflexivity.
  - vm_compute. reflexivity.
Defined.

Lemma configure_pod_manager_url_twice_witness :
  result (configure_pod_manager_url namespace
            (final (configure_pod_manager_url namespace Sample.ready)))
  = Returned tt
  ∧ env_file (final (configure_pod_manager_url namespace
                       (final (configure_pod_manager_url namespace Sample.ready))))
    = env_file (final (configure_pod_manager_url namespace Sample.ready)).
Proof.
  apply (configure_pod_manager_url_twice namespace Sample.ready "10.0.0.7"
           [("DEBUG", "1"); ("REGION ", " eu")]).
  - vm_compute. reflexivity.
  - vm_compute. reflexivity.
  - vm_compute. reflexivity.
  - vm_compute. reflexivity.
Defined.

End ResolutionExtrasWitnesses.

(* ===================================================================== *)
(** ** More on the bootstrap *)
(* ===================================================================== *)

Section BootstrapExtras.
Context {St : Type} `{!K8s.ControlPlane St}.
Import SpliceOrcPlugin.
Implicit Types (w : World St) (s : St).

Lemma existsb_eqb_elem name (listed : list string) :
  existsb (λ ns, String.eqb ns name) listed = bool_decide (name ∈ listed).
Proof.
  destruct (existsb _ _) eqn:E.
  - apply existsb_exists in E as (x & Hx & ->%String.eqb_eq).
    symmetry. apply bool_decide_eq_true_2. by apply list_elem_of_In.
  - symmetry. apply bool_decide_eq_false_2. intros Hin.
    apply not_true_iff_false in E. apply E, existsb_exists. exists name.
    split; [by apply list_elem_of_In | apply String.eqb_refl].
Qed.

Lemma create_namespace_listed name w listed s1 :
  config_loadable w →
  K8s.respond K8s.list_namespace (cluster w) = (K8s.ApiOk listed, s1) →
  name ∈ listed →
  ∃ t, create_namespace name w = (Returned tt, set_cluster w s1, t)
       ∧ api_calls t = [(K8s.list_namespace, None)].
Proof.
  intros Hc Hlist Hin. destruct (load_config_run w Hc) as (t0 & Hl & Ht0 & _).
  unfold create_namespace. unfold Eff.bind at 1.
  unfold logging_info at 1, emit at 1.
  unfold Eff.bind at 1. rewrite Hl.
  unfold_run. rewrite Hlist. cbn beta iota.
  rewrite existsb_eqb_elem, bool_decide_eq_true_2 by done. cbn.
  eexists. split; [reflexivity |].
  unfold api_calls in *. simpl. by rewrite omap_app, Ht0.
Qed.

Lemma create_namespace_unlisted name w listed s1 answer s2 :
  config_loadable w →
  K8s.respond K8s.list_namespace (cluster w) = (K8s.ApiOk listed, s1) →
  name ∉ listed →
  K8s.respond (K8s.create_namespace name) s1 = (answer, s2) →
  ∃ t, create_namespace name w
       = (match answer with
          | K8s.ApiOk _ => Returned tt
          | K8s.ApiFail e => Raised e
          end, set_cluster w s2, t)
       ∧ api_calls t
         = [(K8s.list_namespace, None);
            (K8s.create_namespace name,
             match answer with K8s.ApiOk _ => None | K8s.ApiFail e => Some e end)].
Proof.
  intros Hc Hlist Hnin Hcreate.
  destruct (load_config_run w Hc) as (t0 & Hl & Ht0 & _).
  unfold create_namespace. unfold Eff.bind at 1.
  unfold logging_info at 1, emit at 1.
  unfold Eff.bind at 1. rewrite Hl.
  unfold_run. rewrite Hlist. cbn beta iota.
  rewrite existsb_eqb_elem, bool_decide_eq_false_2 by done.
  cbn [cluster set_cluster]. rewrite Hcreate.
  destruct answer as [[] | e]; cbn; (eexists; split; [reflexivity |]);
    unfold api_calls in *; simpl; by rewrite omap_app, Ht0.
Qed.

(** X13.  [create_namespace] creates only when the listing lacks the
    name: when the name is listed the listing is its only call and it
    returns; otherwise the create follows the listing and its failure, if
    any, is raised. *)
Theorem create_namespace_creates_when_unlisted name w listed s1 :
  config_loadable w →
  K8s.respond K8s.list_namespace (cluster w) = (K8s.ApiOk listed, s1) →
  (name ∈ listed →
   result (create_namespace name w) = Returned tt
   ∧ final (create_namespace name w) = set_cluster w s1
   ∧ api_calls (events (create_namespace name w))
     = [(K8s.list_namespace, None)])
  ∧ (name ∉ listed →
     ∀ answer s2,
       K8s.respond (K8s.create_namespace name) s1 = (answer, s2) →
       final (create_namespace name w) = set_cluster w s2
       ∧ match answer with
         | K8s.ApiOk _ =>
             result (create_namespace name w) = Returned tt
             ∧ api_calls (events (create_namespace name w))
               = [(K8s.list_namespace, None);
                  (K8s.create_namespace name, None)]
         | K8s.ApiFail e =>
             result (create_namespace name w) = Raised e
             ∧ api_calls (events (create_namespace name w))
               = [(K8s.list_namespace, None);
                  (K8s.create_namespace name, Some e)]
         end).
Proof.
  intros Hc Hlist. split.
  - intros Hin.
    by destruct (create_namespace_listed _ _ _ _ Hc Hlist Hin) as (t & -> & Ht).
  - intros Hnin answer s2 Hcreate.
    destruct (create_namespace_unlisted _ _ _ _ _ _ Hc Hlist Hnin Hcreate)
      as (t & -> & Ht).
    by destruct answer.
Qed.

Lemma is_create_not_read c : K8s.is_create c = true → K8s.is_read c = false.
Proof. by destruct c. Qed.

(** X15.  A create that fails during the bootstrap is never tolerated,
    not even with 409 for an object that appeared after its read: the
    bootstrap raises the create's exception and makes no further call. *)
Theorem bootstrap_propagates_create_failure w c e :
  (c, Some e) ∈ api_calls (events (bootstrap w)) →
  K8s.is_create c = true →
  result (bootstrap w) = Raised e
  ∧ last (api_calls (events (bootstrap w))) = Some (c, Some e).
Proof.
  intros Hin Hcreate. apply (bootstrap_fail_fast w c e Hin).
  rewrite (is_create_not_read _ Hcreate). discriminate.
Qed.

Section Along.
Variable R : World St → World St → Prop.
Hypothesis R_refl : ∀ w, R w w.
Hypothesis R_trans : ∀ w1 w2 w3, R w1 w2 → R w2 w3 → R w1 w3.
Hypothesis R_call :
  ∀ c w, R w (set_cluster w (K8s.respond c (cluster w)).2).

Lemma along_bind {A B} (m : M St A) (k : A → M St B) :
  moves_along R m → (∀ a, moves_along R (k a)) → moves_along R (Eff.bind m k).
Proof.
  intros Hm Hk w. specialize (Hm w). unfold Eff.bind, final in *.
  destruct (m w) as [[[a | e] w1] t1]; [| done]. cbn [fst snd] in Hm.
  specialize (Hk a w1). unfold final in Hk.
  destruct (k a w1) as [[r w2] t2]. cbn [fst snd] in *. eauto.
Qed.

Lemma along_try {A} (m : M St A) (h : exn → M St A) :
  moves_along R m → (∀ e, moves_along R (h e)) → moves_along R (try_except m h).
Proof.
  intros Hm Hh w. specialize (Hm w). unfold try_except, final in *.
  destruct (m w) as [[[a | e] w1] t1]; [done |]. cbn [fst snd] in Hm.
  specialize (Hh e w1). unfold final in Hh.
  destruct (h e w1) as [[r w2] t2]. cbn [fst snd] in *. eauto.
Qed.

Lemma along_still {A} (m : M St A) :
  (∀ w, final (m w) = w) → moves_along R m.
Proof. intros Hm w. rewrite Hm. apply R_refl. Qed.

Lemma along_call c : moves_along R (call c).
Proof.
  intros w. unfold call, final. specialize (R_call c w).
  by destruct (K8s.respond c (cluster w)) as [[a | e] s].
Qed.

Lemma along_load_config : moves_along R load_config.
Proof.
  apply along_still. intros w. unfold load_config. unfold_run.
  by repeat run_step.
Qed.

Lemma along_read_or_create c found (create : M St unit) err :
  moves_along R create →
  moves_along R
    (try_except (call c ;;; logging_info found)
       (λ e, match e with
             | ApiException status =>
                 if (status =? 404)%Z then create
                 else (logging_error [Text err; Exc e] ;;; raise e)
             | _ => raise e
             end)).
Proof.
  intros Hcreate. apply along_try.
  - apply along_bind; [apply along_call | intros _; by apply along_still].
  - intros [status| | | | |]; try by apply along_still.
    destruct (status =? 404)%Z; [done |].
    apply along_bind; intros; by apply along_still.
Qed.

Lemma along_create_then_log c msg : moves_along R (call c ;;; logging_info msg).
Proof. apply along_bind; [apply along_call | intros _; by apply along_still]. Qed.

Lemma bootstrap_along : moves_along R bootstrap.
Proof.
  unfold bootstrap. apply along_bind; [by apply along_still | intros _].
  apply along_bind.
  - unfold create_namespace.
    apply along_bind; [by apply along_still | intros _].
    apply along_bind; [apply along_load_config | intros _].
    apply along_bind; [apply along_call | intros listed].
    destruct (existsb _ listed);
      [by apply along_still | apply along_create_then_log].
  - intros _. unfold create_service_account, create_role_and_binding.
    apply along_bind;
      [apply along_read_or_create, along_create_then_log | intros _].
    apply along_bind;
      [apply along_read_or_create, along_create_then_log | intros _].
    apply along_read_or_create, along_create_then_log.
Qed.

End Along.

Lemma cluster_moved_refl w : cluster_moved w w.
Proof. exists (cluster w). by destruct w. Qed.

Lemma cluster_moved_trans w1 w2 w3 :
  cluster_moved w1 w2 → cluster_moved w2 w3 → cluster_moved w1 w3.
Proof. intros [s1 ->] [s2 ->]. by exists s2. Qed.

Lemma bootstrap_cluster_moved w : cluster_moved w (final (bootstrap w)).
Proof.
  apply (bootstrap_along cluster_moved);
    [apply cluster_moved_refl | apply cluster_moved_trans |].
  intros c w0. by eexists.
Qed.

End BootstrapExtras.

Section ReferenceExtras.
Import SpliceOrcPlugin.
Implicit Types (w : World Cluster.state).

(** X14.  [create_role_and_binding] does not compare what it finds: a
    role or role binding of the plugin's name that is already there is
    left with whatever it holds, one that is missing is created from the
    plugin's definition, and nothing else in the cluster changes. *)
Theorem create_role_and_binding_keeps_existing ns sa w :
  fault_free w → ns ∈ Cluster.namespaces (cluster w) →
  let s := cluster w in
  let s' := cluster (final (create_role_and_binding ns sa w)) in
  result (create_role_and_binding ns sa w) = Returned tt
  ∧ Cluster.roles s'
    = match Cluster.roles s !! (ns, role_name) with
      | Some _ => Cluster.roles s
      | None => <[(ns, role_name) := role ns]> (Cluster.roles s)
      end
  ∧ Cluster.role_bindings s'
    = match Cluster.role_bindings s !! (ns, role_binding_name) with
      | Some _ => Cluster.role_bindings s
      | None => <[(ns, role_binding_name) := role_binding ns sa]>
                  (Cluster.role_bindings s)
      end
  ∧ Cluster.namespaces s' = Cluster.namespaces s
  ∧ Cluster.service_accounts s' = Cluster.service_accounts s
  ∧ Cluster.services s' = Cluster.services s.
Proof.
  intros Hff Hns s s'. subst s s'. unfold fault_free in Hff.
  unfold create_role_and_binding. unfold_run.
  unfold K8s.respond, Cluster.control_plane.
  repeat ref_step Hff; try done.
Qed.

End ReferenceExtras.

Section BootstrapExtrasWitnesses.
Import SpliceOrcPlugin.

Lemma create_namespace_creates_when_unlisted_witness :
  api_calls (events (create_namespace namespace Sample.unready))
  = [(K8s.list_namespace, None)]
  ∧ api_calls (events (create_namespace namespace Sample.fresh))
    = [(K8s.list_namespace, None); (K8s.create_namespace namespace, None)].
Proof.
  split.
  - refine (proj2 (proj2 (proj1 (create_namespace_creates_when_unlisted
              namespace Sample.unready [namespace] (cluster Sample.unready)
              (or_introl eq_refl) _) _))).
    + vm_compute. reflexivity.
    + vm_compute. constructor.
  - refine (proj2 (proj2 (proj2 (create_namespace_creates_when_unlisted
              namespace Sample.fresh [] (cluster Sample.fresh)
              (or_introl eq_refl) _) _ (K8s.ApiOk tt) _ _))).
    + vm_compute. reflexivity.
    + apply not_elem_of_nil.
    + vm_compute. reflexivity.
Defined.

Lemma bootstrap_propagates_create_failure_witness :
  result (bootstrap Sample2.racing) = Raised (ApiException 409)
  ∧ last (api_calls (events (bootstrap Sample2.racing)))
    = Some (K8s.create_namespaced_service_account namespace
              service_account_name, Some (ApiException 409)).
Proof.
  apply (bootstrap_propagates_create_failure Sample2.racing).
  - vm_compute. repeat constructor.
  - reflexivity.
Defined.

Lemma create_role_and_binding_keeps_existing_witness :
  Cluster.roles (cluster (final (create_role_and_binding namespace
                                   service_account_name Sample2.narrowed)))
  !! (namespace, role_name) = Some Sample2.narrow_role.
Proof.
  destruct (create_role_and_binding_keeps_existing namespace
              service_account_name Sample2.narrowed) as (_ & Hroles & _).
  - intros c. reflexivity.
  - vm_compute. set_solver.
  - rewrite Hroles. vm_compute. reflexivity.
Defined.

End BootstrapExtrasWitnesses.

(* ===================================================================== *)
(** ** More on import routing *)
(* ===================================================================== *)

Section RoutingExtras.
Context {St Obj Proxy : Type}.
Variable get_module_proxy :
  option string → string → gmap string cfg_value → St → outcome Proxy * St.
Variable python_run_import : ImportPathSpec → outcome (ImportReturn Obj).
Variable jac_run_import :
  ImportPathSpec → option bool → outcome (ImportReturn Obj).
Import SpliceOrcPlugin.
Implicit Types (w : World St).

Abbreviation jac_import :=
  (jac_import (St:=St) get_module_proxy python_run_import jac_run_import).
Abbreviation imported := (imported python_run_import jac_run_import).
Abbreviation shape := (shape (Obj:=Obj) (Proxy:=Proxy)).

(** X17.  A module configuration that has no [load_type] makes the hook
    raise [KeyError] at once: no importer runs, no proxy is asked for and
    nothing changes. *)
Theorem jac_import_missing_load_type target base_path absorb cachable
    mdl_alias override_name lng items reload_module w config :
  module_config w !! target = Some config →
  config !! "load_type" = None →
  jac_import target base_path absorb cachable mdl_alias override_name lng
    items reload_module w
  = (Raised (KeyError "load_type"), w, []).
Proof.
  intros Hcfg Hlt. unfold SpliceOrcPlugin.jac_import. unfold_run.
  by rewrite Hcfg, Hlt.
Qed.

Lemma cfg_eq_str_false v s : v ≠ CfgStr s → cfg_eq_str v s = false.
Proof.
  destruct v as [s' | l]; [| done]. intros Hne. simpl.
  destruct (String.eqb_spec s' s); congruence.
Qed.

(** X18.  Only the exact string [remote] selects the remote route: with
    any other [load_type], another spelling or a value that is no string,
    the hook runs the local importer and touches neither the endpoint nor
    the proxy factory. *)
Theorem jac_import_other_load_type target base_path absorb cachable
    mdl_alias override_name lng items reload_module w config load_type :
  module_config w !! target = Some config →
  config !! "load_type" = Some load_type →
  load_type ≠ CfgStr "remote" →
  let run := jac_import target base_path absorb cachable mdl_alias
               override_name lng items reload_module w in
  let spec := spec_of target base_path absorb cachable mdl_alias
                override_name lng items in
  List.filter is_import_event (events run)
  = [import_event lng spec reload_module]
  ∧ List.filter is_endpoint_event (events run) = []
  ∧ result run
    = outcome_map (shape absorb items) (imported lng spec reload_module).
Proof.
  intros Hcfg Hlt Hne run spec. subst run.
  rewrite jac_import_not_remote, local_import_run.
  - fold spec. unfold result, events. cbn [fst snd].
    rewrite !List.filter_app. unfold import_event.
    destruct (jac_program w); case_bool_decide; by cbn.
  - right. exists config, load_type. split_and!; [done | done |].
    by apply cfg_eq_str_false.
Qed.

(** X19.  On the local route the hook attaches a program to the machine
    exactly when it has none, before the importer runs; afterwards the
    machine has a program, also when the importer raises, and what the
    importer raises is what the hook raises. *)
Theorem jac_import_attaches_program target base_path absorb cachable
    mdl_alias override_name lng items reload_module w :
  not_remote w target →
  let run := jac_import target base_path absorb cachable mdl_alias
               override_name lng items reload_module w in
  let spec := spec_of target base_path absorb cachable mdl_alias
                override_name lng items in
  events run
  = (if jac_program w then [] else [EvAttachProgram])
    ++ [import_event lng spec reload_module]
  ∧ jac_program (final run) = true
  ∧ (∀ e, imported lng spec reload_module = Raised e → result run = Raised e).
Proof.
  intros Hnr run spec. subst run.
  rewrite jac_import_not_remote, local_import_run by done. fold spec.
  unfold result, final, events. cbn [fst snd]. split_and!.
  - done.
  - by destruct (jac_program w) eqn:E.
  - by intros e ->.
Qed.

End RoutingExtras.

Section EndpointVisibility.
Context {St Obj Proxy : Type} `{!K8s.ControlPlane St}.
Variable get_module_proxy :
  option string → string → gmap string cfg_value → St → outcome Proxy * St.
Variable python_run_import : ImportPathSpec → outcome (ImportReturn Obj).
Variable jac_run_import :
  ImportPathSpec → option bool → outcome (ImportReturn Obj).
Import SpliceOrcPlugin.
Implicit Types (w : World St).

(** X6.  The endpoint that [configure_pod_manager_url] persists goes to
    [.env] only: a remote import that follows in the same process still
    hands the proxy factory what the environment held before, and nothing
    if it held nothing. *)
Theorem import_after_configure_sees_old_environment ns target base_path
    absorb cachable mdl_alias override_name lng items reload_module w config :
  remote_mode w target config →
  let configured := final (configure_pod_manager_url ns w) in
  let run := SpliceOrcPlugin.jac_import get_module_proxy python_run_import
               jac_run_import target base_path absorb cachable mdl_alias
               override_name lng items reload_module configured in
  let url := environ w !! POD_MANAGER_URL in
  result run
  = outcome_map (λ p, [Remote p])
      (get_module_proxy url target config (cluster configured)).1
  ∧ List.filter is_endpoint_event (events run)
    = [EvGetenv POD_MANAGER_URL; EvModuleProxy url target config].
Proof.
  intros [Hcfg Hlt] configured run url.
  destruct (configure_frame ns w) as (s & f & Hframe).
  fold configured in Hframe.
  assert (environ configured = environ w) as Henv by by rewrite Hframe.
  assert (module_config configured = module_config w) as Hmc
    by by rewrite Hframe.
  assert (remote_mode configured target config) as Hremote.
  { split; [by rewrite Hmc | done]. }
  subst run.
  rewrite (jac_import_remote_run _ _ _ _ _ _ _ _ _ _ _ _ _ _ Hremote).
  rewrite Henv. fold url. unfold result, events. cbn [fst snd].
  by destruct (get_module_proxy url target config (cluster configured)).1.
Qed.

End EndpointVisibility.

Section RoutingExtrasWitnesses.
Import SpliceOrcPlugin.

Lemma jac_import_missing_load_type_witness :
  Sample.import_ "numpy" false None Sample2.no_load_type
  = (Raised (KeyError "load_type"), Sample2.no_load_type, []).
Proof.
  apply (jac_import_missing_load_type Reference.get_module_proxy
           Reference.run_import Sample.jac_run_import "numpy" "/app" false
           true None None (Some "py") None None Sample2.no_load_type ∅).
  - vm_compute. reflexivity.
  - vm_compute. reflexivity.
Defined.

Lemma jac_import_other_load_type_witness :
  List.filter is_endpoint_event
    (events (Sample.import_ "numpy" false None Sample2.capitalised)) = []
  ∧ result (Sample.import_ "numpy" false None Sample2.capitalised)
    = Returned [Local (Reference.Module_ "numpy")].
Proof.
  destruct (jac_import_other_load_type Reference.get_module_proxy
              Reference.run_import Sample.jac_run_import "numpy" "/app" false
              true None None (Some "py") None None Sample2.capitalised
              {["load_type" := CfgStr "Remote"]} (CfgStr "Remote"))
    as (_ & He & Hr).
  - vm_compute. reflexivity.
  - vm_compute. reflexivity.
  - discriminate.
  - split; [exact He |]. refine (eq_trans Hr _). vm_compute. reflexivity.
Defined.

Lemma jac_import_attaches_program_witness :
  events (Sample.import_ "os" false None Sample.fresh)
  = [EvAttachProgram;
     EvRunImport PythonImporter
       (spec_of "os" "/app" false true None None (Some "py") None) None]
  ∧ jac_program (final (Sample.import_ "os" false None Sample.fresh)) = true.
Proof.
  destruct (jac_import_attaches_program Reference.get_module_proxy
              Reference.run_import Sample.jac_run_import "os" "/app" false
              true None None (Some "py") None None Sample.fresh)
    as (He & Hp & _).
  - left. vm_compute. reflexivity.
  - split; [exact He | exact Hp].
Defined.

Lemma import_after_configure_sees_old_environment_witness :
  env_file (final (configure_pod_manager_url namespace Sample2.resolved_remote))
  = Some (write_env_vars
            [("DEBUG", "1"); ("REGION ", " eu");
             ("POD_MANAGER_URL", "http://10.0.0.7:8000")])
  ∧ List.filter is_endpoint_event
      (events (Sample.import_ "numpy" false None
                 (final (configure_pod_manager_url namespace
                           Sample2.resolved_remote))))
    = [EvGetenv POD_MANAGER_URL;
       EvModuleProxy None "numpy" Sample.remote_config].
Proof.
  split; [vm_compute; reflexivity |].
  refine (proj2 (import_after_configure_sees_old_environment
                   Reference.get_module_proxy Reference.run_import
                   Sample.jac_run_import namespace "numpy" "/app" false true
                   None None (Some "py") None None Sample2.resolved_remote
                   Sample.remote_config _)).
  split; vm_compute; reflexivity.
Defined.

End RoutingExtrasWitnesses.

(* ===================================================================== *)
(** ** The manifest and the activation *)
(* ===================================================================== *)

Section ActivationExtras.
Context {St : Type} `{!K8s.ControlPlane St}.
Variable create_from_yaml :
  string → string → St → Activation.yaml_answer * St.
Variable yaml_file : string.
Import SpliceOrcPlugin Activation.
Implicit Types (w : World St) (s : St).

Abbreviation apply_pod_manager_yaml :=
  (apply_pod_manager_yaml create_from_yaml yaml_file).
Abbreviation init := (init create_from_yaml yaml_file).

Abbreviation applying := (applying yaml_file).

Lemma load_config_no_log w t :
  load_config w = (Returned tt, w, t) → List.filter is_log_event t = [].
Proof.
  unfold load_config. unfold_run.
  destruct (kube_config w); [by intros [= <-] |].
  destruct (incluster_config w); [by intros [= <-] | done].
Qed.

Lemma handle_conflicts conflicts w :
  Forall (λ err, err_status err = 409) conflicts →
  handle_api_exceptions (St:=St) conflicts w
  = (Returned tt, w, already_exists <$> conflicts).
Proof.
  induction 1 as [|err conflicts Herr Hc IH]; [done |].
  cbn [handle_api_exceptions]. rewrite Herr. cbn [Z.eqb Pos.eqb].
  unfold_run. unfold Eff.bind, logging_info, emit in IH.
  fold (handle_api_exceptions (St:=St)). by rewrite IH.
Qed.

Lemma handle_first_refusal conflicts err rest w :
  Forall (λ err, err_status err = 409) conflicts →
  err_status err ≠ 409 →
  handle_api_exceptions (St:=St) (conflicts ++ err :: rest) w
  = (Raised FailToCreateError, w,
     (already_exists <$> conflicts) ++ [error_creating err]).
Proof.
  intros Hc Herr. induction Hc as [|err0 conflicts Herr0 Hc IH].
  - cbn [app handle_api_exceptions].
    destruct (Z.eqb_spec (err_status err) 409); [done |]. done.
  - cbn [app handle_api_exceptions]. rewrite Herr0. cbn [Z.eqb Pos.eqb].
    unfold_run. fold (handle_api_exceptions (St:=St)). by rewrite IH.
Qed.

Lemma apply_run ns w answer s :
  config_loadable w →
  create_from_yaml yaml_file ns (cluster w) = (answer, s) →
  ∃ t0, List.filter is_log_event t0 = []
        ∧ apply_pod_manager_yaml ns w
          = match (match answer with
                   | Created =>
                       logging_info [Text ("Successfully applied " +:+ yaml_file)]
                   | FailToCreate api_exceptions =>
                       handle_api_exceptions api_exceptions
                   | Failed e =>
                       logging_error
                         [Text "An unexpected error occurred: "; Exc e] ;;;
                       raise e
                   end) (set_cluster w s) with
            | (r, w2, t2) => (r, w2, t0 ++ applying ns :: t2)
            end.
Proof.
  intros Hc Hy. destruct (load_config_run w Hc) as (t0 & Hl & _).
  exists t0. split; [by apply (load_config_no_log w) |].
  unfold Activation.apply_pod_manager_yaml. unfold Eff.bind at 1. rewrite Hl.
  unfold Eff.bind at 1. unfold logging_info at 1, emit at 1.
  unfold Eff.bind at 1. unfold call_create_from_yaml. rewrite Hy.
  destruct answer as [| l | e].
  - by destruct (logging_info _ (set_cluster w s)) as [[r w2] t2].
  - by destruct (handle_api_exceptions l (set_cluster w s)) as [[r w2] t2].
  - by destruct (Eff.bind _ _ (set_cluster w s)) as [[r w2] t2].
Qed.

(** X20.  Applying a manifest whose objects all exist already is no
    failure: when every entry of the [FailToCreateError] has status 409,
    [apply_pod_manager_yaml] returns normally, having logged one line per
    entry; with no entry at all it returns without a further line. *)
Theorem apply_pod_manager_yaml_tolerates_conflicts ns w conflicts s :
  config_loadable w →
  create_from_yaml yaml_file ns (cluster w) = (FailToCreate conflicts, s) →
  Forall (λ err, err_status err = 409) conflicts →
  result (apply_pod_manager_yaml ns w) = Returned tt
  ∧ final (apply_pod_manager_yaml ns w) = set_cluster w s
  ∧ List.filter is_log_event (events (apply_pod_manager_yaml ns w))
    = applying ns :: (already_exists <$> conflicts).
Proof.
  intros Hc Hy Hall. destruct (apply_run ns w _ s Hc Hy) as (t0 & Ht0 & ->).
  rewrite handle_conflicts by done.
  unfold result, final, events. cbn [fst snd]. split_and!; [done | done |].
  rewrite List.filter_app, Ht0. cbn. f_equal.
  clear. induction conflicts as [|err l IH]; [done |]. cbn. by rewrite IH.
Qed.

(** X21.  The first entry whose status is not 409 ends the application:
    [apply_pod_manager_yaml] raises the [FailToCreateError] again after
    one line per conflict before that entry and one error line for it;
    the entries after it are not looked at. *)
Theorem apply_pod_manager_yaml_raises_on_refusal ns w conflicts err rest s :
  config_loadable w →
  create_from_yaml yaml_file ns (cluster w)
  = (FailToCreate (conflicts ++ err :: rest), s) →
  Forall (λ err, err_status err = 409) conflicts →
  err_status err ≠ 409 →
  result (apply_pod_manager_yaml ns w) = Raised FailToCreateError
  ∧ final (apply_pod_manager_yaml ns w) = set_cluster w s
  ∧ List.filter is_log_event (events (apply_pod_manager_yaml ns w))
    = applying ns :: (already_exists <$> conflicts) ++ [error_creating err].
Proof.
  intros Hc Hy Hall Herr.
  destruct (apply_run ns w _ s Hc Hy) as (t0 & Ht0 & ->).
  rewrite handle_first_refusal by done.
  unfold result, final, events. cbn [fst snd]. split_and!; [done | done |].
  rewrite List.filter_app, Ht0. cbn. f_equal. rewrite List.filter_app. cbn.
  f_equal. clear. induction conflicts as [|e l IH]; [done |]. cbn. by rewrite IH.
Qed.

(** X22.  When [create_from_yaml] returns, the application is logged as
    successful; when it raises anything but [FailToCreateError], the
    exception is logged and raised again. *)
Theorem apply_pod_manager_yaml_other_answers ns w answer s :
  config_loadable w →
  create_from_yaml yaml_file ns (cluster w) = (answer, s) →
  (answer = Created →
   result (apply_pod_manager_yaml ns w) = Returned tt
   ∧ List.filter is_log_event (events (apply_pod_manager_yaml ns w))
     = [applying ns;
        EvLog INFO [Text ("Successfully applied " +:+ yaml_file)]])
  ∧ (∀ e, answer = Failed e →
     result (apply_pod_manager_yaml ns w) = Raised e
     ∧ List.filter is_log_event (events (apply_pod_manager_yaml ns w))
       = [applying ns;
          EvLog ERROR [Text "An unexpected error occurred: "; Exc e]]).
Proof.
  intros Hc Hy. destruct (apply_run ns w _ s Hc Hy) as (t0 & Ht0 & ->).
  split.
  - intros ->. unfold_run. cbn [fst snd]. split; [done |].
    by rewrite List.filter_app, Ht0.
  - intros e ->. unfold_run. cbn [fst snd]. split; [done |].
    by rewrite List.filter_app, Ht0.
Qed.

Lemma apply_cluster_moved ns w :
  cluster_moved w (final (apply_pod_manager_yaml ns w)).
Proof.
  unfold Activation.apply_pod_manager_yaml, load_config, call_create_from_yaml.
  unfold_run.
  assert (∀ l w0, (handle_api_exceptions (St:=St) l w0).1.2 = w0) as Hloop.
  { induction l as [|err l IH]; intros w0; [done |].
    cbn [handle_api_exceptions]. destruct (err_status err =? 409)%Z.
    - unfold_run. specialize (IH w0).
      by destruct (handle_api_exceptions l w0) as [[r w2] t2].
    - done. }
  destruct (kube_config w); [| destruct (incluster_config w)];
    try apply cluster_moved_refl.
  all: destruct (create_from_yaml yaml_file ns (cluster w)) as [answer s];
    destruct answer as [| l | e]; cbn; try by eexists.
  all: specialize (Hloop l (set_cluster w s));
    destruct (handle_api_exceptions l (set_cluster w s)) as [[r w2] t2];
    cbn in *; subst w2; by eexists.
Qed.

Lemma bind_assoc {A B C} (m : M St A) (k : A → M St B) (h : B → M St C) w :
  Eff.bind (Eff.bind m k) h w = Eff.bind m (λ a, Eff.bind (k a) h) w.
Proof.
  unfold Eff.bind. destruct (m w) as [[[a | e] w1] t1]; [| done].
  destruct (k a w1) as [[[b | e] w2] t2]; [| done].
  destruct (h b w2) as [[r w3] t3]. by rewrite app_assoc.
Qed.

Lemma bind_ext {A B} (m : M St A) (k k' : A → M St B) w :
  (∀ a w1, k a w1 = k' a w1) → Eff.bind m k w = Eff.bind m k' w.
Proof.
  intros Hk. unfold Eff.bind. destruct (m w) as [[[a | e] w1] t1]; [| done].
  by rewrite Hk.
Qed.

Lemma init_after_bootstrap w :
  init w
  = Eff.bind bootstrap
      (λ _, apply_pod_manager_yaml namespace ;;;
            configure_pod_manager_url namespace) w.
Proof.
  unfold Activation.init, bootstrap. rewrite bind_assoc.
  apply bind_ext. intros _ w1. by rewrite bind_assoc.
Qed.

(** X23.  The activation stops where the bootstrap stops: when the
    bootstrap raises, [__init__] raises the same exception after the same
    events, the manifest is not applied and [.env] is not touched. *)
Theorem init_stops_with_bootstrap w e :
  result (bootstrap w) = Raised e →
  result (init w) = Raised e
  ∧ final (init w) = final (bootstrap w)
  ∧ events (init w) = events (bootstrap w)
  ∧ env_file (final (init w)) = env_file w.
Proof.
  intros Hres. destruct (bootstrap_cluster_moved w) as [s Hs].
  rewrite init_after_bootstrap. unfold Eff.bind.
  destruct (bootstrap w) as [[r w1] t1].
  unfold result, final, events in *. cbn [fst snd] in *. subst r w1. done.
Qed.

(** X24.  An unresolved endpoint does not fail the activation: when the
    bootstrap and the manifest application go through and no address is
    resolved, [__init__] returns normally and [.env] is as it was. *)
Theorem init_survives_unresolved_endpoint w :
  let bootstrapped := final (bootstrap w) in
  let applied := final (apply_pod_manager_yaml namespace bootstrapped) in
  result (bootstrap w) = Returned tt →
  result (apply_pod_manager_yaml namespace bootstrapped) = Returned tt →
  result (get_loadbalancer_url service_name namespace applied) = Returned None →
  result (init w) = Returned tt
  ∧ env_file (final (init w)) = env_file w.
Proof.
  intros bootstrapped applied Hboot Happly Hres.
  destruct (bootstrap_cluster_moved w) as [s1 Hs1].
  destruct (apply_cluster_moved namespace bootstrapped) as [s2 Hs2].
  fold bootstrapped in Hs1. fold applied in Hs2.
  assert (env_file (final (configure_pod_manager_url namespace applied))
          = env_file applied) as Hfile.
  { rewrite (configure_unresolved namespace applied Hres).
    destruct (get_loadbalancer_url_frame service_name namespace applied)
      as [s3 Hs3].
    unfold final in *. cbn [fst snd]. by rewrite Hs3. }
  assert (result (configure_pod_manager_url namespace applied) = Returned tt)
    as Hconf by by rewrite (configure_unresolved namespace applied Hres).
  rewrite init_after_bootstrap. unfold Eff.bind.
  subst applied bootstrapped.
  destruct (bootstrap w) as [[r1 w1] t1].
  unfold result, final in Hboot, Hs1, Happly, Hs2, Hfile, Hconf |- *.
  cbn [fst snd] in Hboot, Hs1, Happly, Hs2, Hfile, Hconf |- *. subst r1.
  destruct (Activation.apply_pod_manager_yaml create_from_yaml yaml_file
              namespace w1) as [[r2 w2] t2].
  cbn [fst snd] in Happly, Hs2, Hfile, Hconf |- *. subst r2.
  destruct (configure_pod_manager_url namespace w2) as [[r3 w3] t3].
  cbn [fst snd] in Hfile, Hconf |- *. subst r3.
  split; [done |]. rewrite Hfile, Hs2, Hs1. done.
Qed.

End ActivationExtras.

Section ActivationWitnesses.
Import SpliceOrcPlugin Activation.

Lemma apply_pod_manager_yaml_tolerates_conflicts_witness :
  result (apply_pod_manager_yaml Sample2.applied Sample2.yaml_path namespace
            Sample.unready) = Returned tt.
Proof.
  refine (proj1 (apply_pod_manager_yaml_tolerates_conflicts Sample2.applied
                   Sample2.yaml_path namespace Sample.unready _
                   (cluster Sample.unready) (or_introl eq_refl) eq_refl _)).
  repeat constructor.
Defined.

Lemma apply_pod_manager_yaml_raises_on_refusal_witness :
  result (apply_pod_manager_yaml Sample2.rejecting Sample2.yaml_path namespace
            Sample.unready) = Raised FailToCreateError
  ∧ List.filter is_error_log
      (events (apply_pod_manager_yaml Sample2.rejecting Sample2.yaml_path
                 namespace Sample.unready))
    = [EvLog ERROR [Text "Error creating resource: "; Exc (ApiException 403)]].
Proof.
  split; [| vm_compute; reflexivity].
  refine (proj1 (apply_pod_manager_yaml_raises_on_refusal Sample2.rejecting
                   Sample2.yaml_path namespace Sample.unready
                   [ {| err_status := 409; err_reason := "Conflict" |} ]
                   {| err_status := 403; err_reason := "Forbidden" |}
                   [ {| err_status := 409; err_reason := "Conflict" |} ]
                   (cluster Sample.unready) (or_introl eq_refl) eq_refl _ _)).
  - repeat constructor.
  - discriminate.
Defined.

Lemma apply_pod_manager_yaml_other_answers_witness :
  result (apply_pod_manager_yaml (λ _ _ s, (Created, s)) Sample2.yaml_path
            namespace Sample.unready) = Returned tt
  ∧ result (apply_pod_manager_yaml
              (λ _ _ s, (Failed (Foreign "FileNotFoundError"), s))
              Sample2.yaml_path namespace Sample.unready)
    = Raised (Foreign "FileNotFoundError").
Proof.
  split.
  - refine (proj1 (proj1 (apply_pod_manager_yaml_other_answers
              (λ _ _ s, (Created, s)) Sample2.yaml_path namespace
              Sample.unready Created (cluster Sample.unready)
              (or_introl eq_refl) eq_refl) eq_refl)).
  - refine (proj1 (proj2 (apply_pod_manager_yaml_other_answers
              (λ _ _ s, (Failed (Foreign "FileNotFoundError"), s))
              Sample2.yaml_path namespace Sample.unready
              (Failed (Foreign "FileNotFoundError")) (cluster Sample.unready)
              (or_introl eq_refl) eq_refl) _ eq_refl)).
Defined.

Lemma init_stops_with_bootstrap_witness :
  result (init Sample2.applied Sample2.yaml_path Sample.outage)
  = Raised (ApiException 500)
  ∧ env_file (final (init Sample2.applied Sample2.yaml_path Sample.outage))
    = None.
Proof.
  destruct (init_stops_with_bootstrap Sample2.applied Sample2.yaml_path
              Sample.outage (ApiException 500)) as (Hr & _ & _ & Hf).
  - vm_compute. reflexivity.
  - split; [exact Hr | exact Hf].
Defined.

Lemma init_survives_unresolved_endpoint_witness :
  result (init Sample2.applied Sample2.yaml_path Sample.unready) = Returned tt
  ∧ env_file (final (init Sample2.applied Sample2.yaml_path Sample.unready))
    = Some Sample.env_text.
Proof.
  apply (init_survives_unresolved_endpoint Sample2.applied Sample2.yaml_path
           Sample.unready).
  - vm_compute. reflexivity.
  - vm_compute. reflexivity.
  - vm_compute. reflexivity.
Defined.

End ActivationWitnesses.
